(** * chrome-devtools-mcp: the connection context and the layout tools

    A shallow embedding of

    - [src/context.ts]: the process-wide context registry and [setContext],
      which races the driver's connect operation against a timer;
    - the [switch_browser] tool of [src/tools]: [convertHttpToBrowserUrl]
      and the handler;
    - [src/tools/layout.ts]: the handlers of [inspect_element] and
      [get_dom_tree].

    Asynchronous code is written in a small state-and-exception monad over
    a [World] that holds the registry, the armed timers and the trace of
    calls made on the external collaborators (driver, fetch, timers, the
    tool response).  A promise that never settles is the outcome
    [Pending].  Numbers are integers where the code counts milliseconds
    and rationals elsewhere; strings are sequences of bytes.  The calls
    of [logger] write to the debug log only and are left out. *)

From stdpp Require Import base option list gmap strings pretty.
From Stdlib Require Import Ascii ZArith QArith.

Local Open Scope Z_scope.

(** ** JavaScript values the code passes around *)

(** What a [throw] or a rejected promise carries: an [Error] object with
    its [message], or any other value, seen through [String(value)]. *)
Inductive Thrown :=
| ErrorObj (message : string)
| NonError (as_string : string).

(** [error instanceof Error ? error.message : String(error)] *)
Definition message_of (error : Thrown) : string :=
  match error with
  | ErrorObj message => message
  | NonError as_string => as_string
  end.

(** The handle [ensureBrowserConnected] resolves with.  Objects are
    represented by their identity; [connected] is the liveness flag of
    the driver's handle. *)
Record Browser := mkBrowser { browser_id : nat; connected : bool }.

(** The object built by [McpContext.from], by identity. *)
Inductive McpContext := McpContextRef (context_id : nat).

(** The argument of [ensureBrowserConnected]. *)
Record ConnectArgs := mkConnectArgs {
  ca_browserURL : option string;
  ca_wsEndpoint : option string;
  ca_devtools : bool;
}.

(** The third argument of [McpContext.from]. *)
Record FromOptions := mkFromOptions {
  experimentalDevToolsDebugging : bool;
  fo_experimentalIncludeAllPages : bool;
}.

(** [SetContextOptions] of [context.ts]; [None] is [undefined].  A
    [timeout] is a number of milliseconds, here an integer. *)
Record SetContextOptions := mkSetContextOptions {
  browserURL : option string;
  wsEndpoint : option string;
  devtools : option bool;
  experimentalIncludeAllPages : option bool;
  timeout : option Z;
}.

(** How a promise settles. *)
Inductive Settled (A : Type) :=
| Fulfilled (value : A)
| Rejected (reason : Thrown).
Arguments Fulfilled {A} value.
Arguments Rejected {A} reason.

(** The connect operation started by [ensureBrowserConnected]: it settles
    [at_ms] milliseconds after it was started, or never.  The value is
    the handle, [None] for [null]/[undefined]. *)
Inductive ConnectOp :=
| Settles (at_ms : nat) (s : Settled (option Browser))
| NeverSettles.

(** The body of a response, as [response.json()] delivers it: the promise
    rejects (the body is not JSON), or yields [null], or yields a value
    whose [webSocketDebuggerUrl] property is read ([None]: no such
    property). *)
Inductive JsonBody :=
| JsonRejects (reason : Thrown)
| JsonNull
| JsonData (webSocketDebuggerUrl : option string).

(** What [fetch] does: the promise rejects, or a response arrives. *)
Inductive FetchResult :=
| FetchRejects (reason : Thrown)
| FetchResponse (ok : bool) (statusText : string) (body : JsonBody).

(** ** The world *)

(** Calls that leave the process or touch the timers and the response;
    [EvEvaluate] is a [page.evaluate] made by the named tool. *)
Inductive Event :=
| EvDisconnect
| EvFetch (url : string)
| EvConnect (a : ConnectArgs)
| EvSetTimeout (id : nat) (ms : Z)
| EvClearTimeout (id : nat)
| EvTimerFired (id : nat)
| EvFrom (b : Browser) (o : FromOptions)
| EvEvaluate (tool : string)
| EvResponseLine (line : string).

Record World := mkWorld {
  context : option McpContext;  (* [let context] of context.ts *)
  timers : gmap nat Z;          (* armed timers: id and delay *)
  trace : list Event;           (* oldest first *)
}.

(** The collaborators that are not code of this repository's core, and
    the command line [args] of [main.ts]. *)
Record Env := mkEnv {
  (* [new URL(url).protocol]; [None] when the constructor throws *)
  URL_protocol : string → option string;
  (* the delay after which the platform fires a timer armed for [ms] *)
  timer_delay : Z → nat;
  fetch : string → FetchResult;
  ensureBrowserConnected : ConnectArgs → ConnectOp;
  McpContext_from : Browser → FromOptions → Thrown + McpContext;
  args_experimentalDevtools : option bool;
  args_experimentalIncludeAllPages : option bool;
}.

(** ** Asynchronous computations *)

Inductive Outcome (A : Type) :=
| Returned (a : A)
| Threw (e : Thrown)
| Pending.
Arguments Returned {A} a.
Arguments Threw {A} e.
Arguments Pending {A}.

Definition Async (A : Type) : Type := World → Outcome A * World.

Definition ret {A} (a : A) : Async A := λ w, (Returned a, w).

Definition throw {A} (e : Thrown) : Async A := λ w, (Threw e, w).

Definition bind {A B} (m : Async A) (k : A → Async B) : Async B :=
  λ w, match m w with
       | (Returned a, w1) => k a w1
       | (Threw e, w1) => (Threw e, w1)
       | (Pending, w1) => (Pending, w1)
       end.

Notation "'let*' x ':=' m 'in' k" := (bind m (λ x, k))
  (at level 10, x name, m at level 200, k at level 200, only parsing).
Notation "'do*' m 'in' k" := (bind m (λ _, k))
  (at level 10, m at level 200, k at level 200, only parsing).

(** [try { body } finally { cleanup }]: the cleanup runs when the body
    returns and when it throws, not while it is still pending; a throw
    of the cleanup replaces the outcome of the body. *)
Definition try_finally {A} (body : Async A) (cleanup : Async unit) : Async A :=
  λ w, match body w with
       | (Pending, w1) => (Pending, w1)
       | (o, w1) =>
           match cleanup w1 with
           | (Returned _, w2) => (o, w2)
           | (Threw e, w2) => (Threw e, w2)
           | (Pending, w2) => (Pending, w2)
           end
       end.

(** [try { body } catch (error) { handler }] *)
Definition try_catch {A} (body : Async A) (handler : Thrown → Async A) : Async A :=
  λ w, match body w with
       | (Threw e, w1) => handler e w1
       | r => r
       end.

Definition emit (ev : Event) : Async unit :=
  λ w, (Returned (), mkWorld (context w) (timers w) (trace w ++ [ev])).

(** The assignment [context = value] to the module variable. *)
Definition assign_context (value : option McpContext) : Async unit :=
  λ w, (Returned (), mkWorld value (timers w) (trace w)).

(** Awaiting a promise that has settled, or will. *)
Definition settle {A} (s : Settled A) : Async A :=
  match s with
  | Fulfilled value => ret value
  | Rejected reason => throw reason
  end.

(** ** Timers *)

(** [setTimeout(callback, ms)]: a new timer, whose handle no armed timer
    has. *)
Definition setTimeout (ms : Z) : Async nat :=
  λ w, let id := fresh (dom (timers w)) in
       (Returned id, mkWorld (context w) (<[id:=ms]> (timers w))
                             (trace w ++ [EvSetTimeout id ms])).

(** [clearTimeout(id)]: disarms the timer; nothing to do when it has
    fired already. *)
Definition clearTimeout (id : nat) : Async unit :=
  λ w, (Returned (), mkWorld (context w) (delete id (timers w))
                             (trace w ++ [EvClearTimeout id])).

(** The platform fires timer [id]: it is no longer armed. *)
Definition fire (id : nat) : Async unit :=
  λ w, (Returned (), mkWorld (context w) (delete id (timers w))
                             (trace w ++ [EvTimerFired id])).

(** ** Error messages of the throw sites *)

(** context.ts, the callback of the timer. *)
Definition ConnectionTimeout (timeout : Z) : string :=
  "Failed to connect to browser within " +:+ pretty timeout +:+
  "ms. Please check that the browser is running and accessible at the provided URL.".

(** context.ts, the check of the handle. *)
Definition ConnectionFailed : string :=
  "Failed to connect to browser: browser object is undefined".

(** The switch_browser tool, [convertHttpToBrowserUrl]. *)
Definition ResolutionFailed (url cause : string) : string :=
  "Could not connect to browser at " +:+ url +:+ ": " +:+ cause +:+
  ". Make sure the browser is running and the URL is correct.".

(** The switch_browser tool, the handler. *)
Definition UnsupportedProtocol (protocol : string) : string :=
  "Unsupported protocol: " +:+ protocol +:+
  ". Expected http://, https://, ws://, or wss://".

(** [needle] occurs in [hay]. *)
Definition occurs_in (needle hay : string) : Prop :=
  ∃ before after, hay = before +:+ needle +:+ after.

(** ** context.ts *)

Section WithEnv.
Context (E : Env).

(** [if (timeout)]: [undefined] and [0] are falsy. *)
Definition truthy_number (n : option Z) : bool :=
  match n with
  | None => false
  | Some z => negb (Z.eqb z 0)
  end.

(** [Promise.race([connectPromise, timeoutPromise])] for the timer [id]
    armed for [ms].  The connect operation was started and the timer
    armed in the same run, so both delays count from the same instant:
    the connect operation wins when it settles before the timer fires;
    otherwise the timer fires and its callback rejects with the timeout
    error. *)
Definition race (op : ConnectOp) (id : nat) (ms : Z) : Async (option Browser) :=
  match op with
  | Settles at_ms s =>
      if decide (at_ms < timer_delay E ms)%nat then settle s
      else do* fire id in throw (ErrorObj (ConnectionTimeout ms))
  | NeverSettles => do* fire id in throw (ErrorObj (ConnectionTimeout ms))
  end.

(** [await connectPromise] *)
Definition await_connect (op : ConnectOp) : Async (option Browser) :=
  match op with
  | Settles _ s => settle s
  | NeverSettles => λ w, (Pending, w)
  end.

(** [McpContext.from(browser, logger, options)] *)
Definition from (b : Browser) (o : FromOptions) : Async McpContext :=
  do* emit (EvFrom b o) in
  match McpContext_from E b o with
  | inl e => throw e
  | inr c => ret c
  end.

Definition connect_args (options : SetContextOptions) : ConnectArgs :=
  mkConnectArgs (browserURL options) (wsEndpoint options)
                (default false (devtools options)).

Definition from_options (options : SetContextOptions) : FromOptions :=
  mkFromOptions (default false (devtools options))
                (default false (experimentalIncludeAllPages options)).

Definition setContext (options : SetContextOptions) : Async McpContext :=
  (* const connectPromise = ensureBrowserConnected({...}) *)
  do* emit (EvConnect (connect_args options)) in
  let connectPromise := ensureBrowserConnected E (connect_args options) in
  let* browser :=
    if truthy_number (timeout options) then
      let ms := default 0 (timeout options) in
      let* timeoutId := setTimeout ms in
      try_finally (race connectPromise timeoutId ms)
                  (clearTimeout timeoutId)
    else await_connect connectPromise in
  match browser with
  | None => throw (ErrorObj ConnectionFailed)
  | Some b =>
      let* c := from b (from_options options) in
      do* assign_context (Some c) in ret c
  end.

Definition getContext : World → option McpContext := context.

Definition setContextInstance (newContext : option McpContext) : Async unit :=
  assign_context newContext.

(** ** The switch_browser tool *)

(** The message of the [TypeError] that reading a property of [null]
    raises. *)
Definition null_property_message : string :=
  "Cannot read properties of null (reading 'webSocketDebuggerUrl')".

Definition convertHttpToBrowserUrl (url : string) : Async (option string) :=
  try_catch
    (do* emit (EvFetch (url +:+ "/json/version")) in
     match fetch E (url +:+ "/json/version") with
     | FetchRejects reason => throw reason
     | FetchResponse ok statusText body =>
         if negb ok then
           throw (ErrorObj ("Failed to fetch browser info: " +:+ statusText))
         else
           match body with
           | JsonRejects reason => throw reason
           | JsonNull => throw (ErrorObj null_property_message)
           | JsonData webSocketDebuggerUrl => ret webSocketDebuggerUrl
           end
     end)
    (λ error,
       throw (ErrorObj (ResolutionFailed url (message_of error)))).

(** Modelled from the spec: [disconnectBrowser] of [src/browser.ts],
    which is not among the sources.  The spec's Teardown step
    "unconditionally attempt[s] to disconnect any existing live
    connection (idempotent: no-op if none exists; failure here is
    logged/ignored, never aborts the sequence)", the registry is
    "cleared explicitly on disconnect", and after a failed switch the
    "registry is left empty (not the stale previous context, since
    teardown already happened)".  So: the driver's disconnect is
    called, nothing is thrown, and the registry is empty afterwards. *)
Definition disconnectBrowser : Async unit :=
  do* emit EvDisconnect in assign_context None.

Definition appendResponseLine (line : string) : Async unit :=
  emit (EvResponseLine line).

(** [`${value}`] for a [string | undefined]. *)
Definition template (value : option string) : string :=
  default "undefined" value.

Definition is_ws (protocol : string) : bool :=
  bool_decide (protocol = "ws:") || bool_decide (protocol = "wss:").

Definition is_http (protocol : string) : bool :=
  bool_decide (protocol = "http:") || bool_decide (protocol = "https:").

(** The handler of [switch_browser], on [request.params]; the pair
    bound to [endpoints] is [(wsEndpoint, browserURL)]. *)
Definition switchBrowser (url : string) (timeout : option Z) : Async unit :=
  let timeout := default 10000 timeout in
  do* disconnectBrowser in
  let* protocol :=
    match URL_protocol E url with
    | None => throw (ErrorObj "Invalid URL")
    | Some protocol => ret protocol
    end in
  let* endpoints :=
    if is_ws protocol then
      do* appendResponseLine
            ("Connecting to browser via WebSocket: " +:+ url) in
      ret (Some url, None)
    else if is_http protocol then
      do* appendResponseLine
            ("Fetching WebSocket endpoint from browser at " +:+ url +:+ "...") in
      let* wsEndpoint := convertHttpToBrowserUrl url in
      do* appendResponseLine
            ("Resolved WebSocket endpoint: " +:+ template wsEndpoint) in
      ret (wsEndpoint, Some url)
    else throw (ErrorObj (UnsupportedProtocol protocol)) in
  do* setContext
        {| browserURL := endpoints.2;
           wsEndpoint := endpoints.1;
           devtools := Some (default false (args_experimentalDevtools E));
           experimentalIncludeAllPages := args_experimentalIncludeAllPages E;
           timeout := Some timeout |} in
  appendResponseLine "âœ“ Successfully connected to browser".

End WithEnv.

(** ** tools/layout.ts *)

Module Layout.

(** *** The document *)

(** An element with what the tools read of it: [className] is [None]
    when it is not a string (as for SVG elements); [attributes] are
    name and value, in document order. *)
Inductive Element :=
| mkElement (tagName id : string) (className : option string)
    (attributes : list (string * string)) (childNodes : list ChildNode)
with ChildNode :=
| ElementChild (e : Element)
| TextChild (textContent : string)
| OtherChild.

Definition el_tagName (e : Element) : string :=
  let 'mkElement t _ _ _ _ := e in t.
Definition el_id (e : Element) : string :=
  let 'mkElement _ i _ _ _ := e in i.
Definition el_className (e : Element) : option string :=
  let 'mkElement _ _ c _ _ := e in c.
Definition el_childNodes (e : Element) : list ChildNode :=
  let 'mkElement _ _ _ _ n := e in n.

(** [Array.from(node.children)]: the children that are elements. *)
Fixpoint elements_of (nodes : list ChildNode) : list Element :=
  match nodes with
  | [] => []
  | ElementChild e :: rest => e :: elements_of rest
  | _ :: rest => elements_of rest
  end.

Definition el_children (e : Element) : list Element :=
  elements_of (el_childNodes e).

(** What the selected page answers to the code run inside it.
    [describe] stands for the part of the in-page function of
    [inspect_element] that draws the overlay (when asked to) and reads
    the computed style, and gives the JSON text of its result. *)
Record Page := mkPage {
  querySelector : string → Thrown + option Element;
  elementFromPoint : Q → Q → option Element;
  body : option Element;
  describe : Element → bool → string;
}.

(** *** Strings *)

Definition dquote : string := String "034"%char "".

(** A string in a condition: [undefined] and [''] are falsy. *)
Definition truthy_string (s : option string) : bool :=
  match s with
  | Some (String _ _) => true
  | _ => false
  end.

Definition lower_ascii (c : ascii) : ascii :=
  let n := nat_of_ascii c in
  if (65 <=? n)%nat && (n <=? 90)%nat then ascii_of_nat (n + 32) else c.

Fixpoint toLowerCase (s : string) : string :=
  match s with
  | EmptyString => EmptyString
  | String c rest => String (lower_ascii c) (toLowerCase rest)
  end.

(** White space, among the ASCII characters. *)
Definition is_space (c : ascii) : bool :=
  let n := nat_of_ascii c in
  ((9 <=? n)%nat && (n <=? 13)%nat) || (n =? 32)%nat.

Fixpoint trimStart (s : string) : string :=
  match s with
  | String c rest => if is_space c then trimStart rest else s
  | EmptyString => EmptyString
  end.

Definition trim (s : string) : string :=
  String.rev (trimStart (String.rev (trimStart s))).

(** *** inspect_element *)

(** [request.params]; the schema gives [highlight] its default. *)
Record InspectParams := mkInspectParams {
  selector : option string;
  x : option Q;
  y : option Q;
  highlight : bool;
}.

(** The fields of [InspectResult] the handler reads, with the JSON
    text of the whole record. *)
Record InspectResult := mkInspectResult {
  error : option string;
  rendered : string;
}.

Definition missing_target : string :=
  "Either " +:+ dquote +:+ "selector" +:+ dquote +:+ " or " +:+ dquote
  +:+ "x" +:+ dquote +:+ " and " +:+ dquote +:+ "y" +:+ dquote
  +:+ " coordinates must be provided.".

Section WithPage.
Context (P : Page).

(** The function [inspect_element] runs in the page: step 1 finds the
    element, the rest is [describe]. *)
Definition inspect_in_page (args : InspectParams) : Thrown + InspectResult :=
  let el :=
    if truthy_string (selector args) then
      querySelector P (default "" (selector args))
    else
      match x args, y args with
      | Some px, Some py => inr (elementFromPoint P px py)
      | _, _ => inr None
      end in
  match el with
  | inl e => inl e
  | inr None => inr (mkInspectResult (Some "Element not found") "")
  | inr (Some el) => inr (mkInspectResult None (describe P el (highlight args)))
  end.

(** The handler, for the page that [context.getSelectedPage()] gives. *)
Definition inspectElement (params : InspectParams) : Async unit :=
  if negb (truthy_string (selector params))
     && (bool_decide (x params = None) || bool_decide (y params = None))
  then throw (ErrorObj missing_target)
  else
    do* emit (EvEvaluate "inspect_element") in
    let* result :=
      match inspect_in_page params with
      | inl e => throw e
      | inr result => ret result
      end in
    if truthy_string (error result) then
      appendResponseLine ("Error: " +:+ default "" (error result))
    else appendResponseLine (rendered result).

End WithPage.

(** *** get_dom_tree *)

#[local] Set Warnings "-register-all".

Inductive DomNode :=
| mkDomNode (tagName : string) (id className : option string)
    (attributes : option (list (string * string))) (text : option string)
    (children : option (list DomNode)) (childCount : option nat).

Definition children (n : DomNode) : option (list DomNode) :=
  let 'mkDomNode _ _ _ _ _ c _ := n in c.
Definition childCount (n : DomNode) : option nat :=
  let 'mkDomNode _ _ _ _ _ _ k := n in k.

(** [request.params]; the schema gives [maxDepth] (any number),
    [includeAttributes] and [includeText] their defaults. *)
Record DomTreeParams := mkDomTreeParams {
  rootSelector : option string;
  maxDepth : Q;
  includeAttributes : bool;
  includeText : bool;
}.

(** [depth] is strictly less than [maxDepth]. *)
Definition below (depth : nat) (maxDepth : Q) : Prop :=
  (inject_Z (Z.of_nat depth) < maxDepth)%Q.

(** [currentDepth < args.maxDepth] *)
Definition depth_below (currentDepth : nat) (maxDepth : Q) : bool :=
  negb (Qle_bool maxDepth (inject_Z (Z.of_nat currentDepth))).

Section Serialize.
Context (args : DomTreeParams).

Definition kept_attribute (attr : string * string) : bool :=
  negb (bool_decide (attr.1 = "style"))
  && negb (bool_decide (attr.1 = "class"))
  && negb (bool_decide (attr.1 = "id")).

(** The text of the text nodes among [nodes], each trimmed and
    followed by a space. *)
Fixpoint direct_text (nodes : list ChildNode) : string :=
  match nodes with
  | [] => ""
  | TextChild (String c s) :: rest => trim (String c s) +:+ " " +:+ direct_text rest
  | _ :: rest => direct_text rest
  end.

Definition shorten (text : string) : string :=
  if (50 <? String.length text)%nat then String.substring 0 50 text +:+ "..."
  else text.

(** [serializeNode] of the in-page function.  [serialized] is
    [children.map(child => serializeNode(child, currentDepth + 1))],
    written as a recursion over [childNodes] that skips what is not an
    element, so that each recursive call is on a part of [node]. *)
Fixpoint serializeNode (node : Element) (currentDepth : nat) : DomNode :=
  let 'mkElement tagName id className attributes childNodes := node in
  let result_id := if truthy_string (Some id) then Some id else None in
  let result_className :=
    match className with
    | Some c =>
        if truthy_string (Some c) && truthy_string (Some (trim c))
        then Some (trim c) else None
    | None => None
    end in
  let result_attributes :=
    if includeAttributes args && bool_decide (attributes ≠ [])
    then Some (filter (λ attr, kept_attribute attr = true) attributes)
    else None in
  let result_text :=
    if includeText args then
      let text := trim (direct_text childNodes) in
      if truthy_string (Some text) then Some (shorten text) else None
    else None in
  let children := elements_of childNodes in
  let serialized :=
    (fix each (nodes : list ChildNode) : list DomNode :=
       match nodes with
       | [] => []
       | ElementChild child :: rest =>
           serializeNode child (S currentDepth) :: each rest
       | _ :: rest => each rest
       end) childNodes in
  if bool_decide (children ≠ []) then
    if depth_below currentDepth (maxDepth args) then
      mkDomNode (toLowerCase tagName) result_id result_className
        result_attributes result_text (Some serialized) None
    else
      mkDomNode (toLowerCase tagName) result_id result_className
        result_attributes result_text None (Some (length children))
  else
    mkDomNode (toLowerCase tagName) result_id result_className
      result_attributes result_text None None.

(** The function [get_dom_tree] runs in the page: the error record,
    or the tree. *)
Definition dom_tree_in_page (P : Page) : Thrown + (string + DomNode) :=
  let root :=
    if truthy_string (rootSelector args) then
      querySelector P (default "" (rootSelector args))
    else inr (body P) in
  match root with
  | inl e => inl e
  | inr None =>
      inr (inl ("Root element not found: " +:+
                (if truthy_string (rootSelector args)
                 then default "" (rootSelector args) else "body")))
  | inr (Some root) => inr (inr (serializeNode root 0))
  end.

(** The handler; [JSON_stringify tree] is [JSON.stringify(tree, null, 2)]. *)
Definition getDomTree (P : Page) (JSON_stringify : DomNode → string) : Async unit :=
  do* emit (EvEvaluate "get_dom_tree") in
  let* tree :=
    match dom_tree_in_page P with
    | inl e => throw e
    | inr tree => ret tree
    end in
  match tree with
  | inl error => appendResponseLine ("Error: " +:+ error)
  | inr tree => appendResponseLine (JSON_stringify tree)
  end.

End Serialize.

(** Every node of a tree with its depth, the root being at [depth]. *)
Fixpoint nodes_with_depth (depth : nat) (n : DomNode) : list (nat * DomNode) :=
  (depth, n)
  :: match children n with
     | Some cs =>
         (fix each (l : list DomNode) : list (nat * DomNode) :=
            match l with
            | [] => []
            | c :: rest => nodes_with_depth (S depth) c ++ each rest
            end) cs
     | None => []
     end.

End Layout.

(** ** Vocabulary of the statements *)

(** What was appended to the trace between two worlds. *)
Definition events_since (w w' : World) : list Event :=
  drop (length (trace w)) (trace w').

(** [options] with another [timeout]. *)
Definition with_timeout (options : SetContextOptions) (t : option Z) : SetContextOptions :=
  mkSetContextOptions (browserURL options) (wsEndpoint options)
    (devtools options) (experimentalIncludeAllPages options) t.

(** What [switchBrowser] passes to [setContext]. *)
Definition switch_options (E : Env) (wsEndpoint browserURL : option string)
    (timeout : option Z) : SetContextOptions :=
  {| browserURL := browserURL;
     wsEndpoint := wsEndpoint;
     devtools := Some (default false (args_experimentalDevtools E));
     experimentalIncludeAllPages := args_experimentalIncludeAllPages E;
     timeout := Some (default 10000 timeout) |}.

Section Races.
Context (E : Env) (options : SetContextOptions).

(** A timer is armed and the connect operation settles with [s] after
    [at_ms] milliseconds, before the timer fires. *)
Definition connect_settles_first (at_ms : nat) (s : Settled (option Browser)) : Prop :=
  truthy_number (timeout options) = true
  ∧ ensureBrowserConnected E (connect_args options) = Settles at_ms s
  ∧ (at_ms < timer_delay E (default 0%Z (timeout options)))%nat.

(** A timer is armed for [ms] and the connect operation has not
    settled when it fires. *)
Definition timer_fires_first (ms : Z) : Prop :=
  timeout options = Some ms
  ∧ truthy_number (timeout options) = true
  ∧ match ensureBrowserConnected E (connect_args options) with
    | Settles at_ms _ => ¬ (at_ms < timer_delay E ms)%nat
    | NeverSettles => True
    end.

(** The connect operation resolves with the handle [h], and no timer
    fires before it does. *)
Definition connect_resolves (h : option Browser) : Prop :=
  ∃ at_ms,
    ensureBrowserConnected E (connect_args options) = Settles at_ms (Fulfilled h)
    ∧ (truthy_number (timeout options) = true →
       (at_ms < timer_delay E (default 0%Z (timeout options)))%nat).

End Races.

(** The events of [setContext] beyond the connect call: timers and the
    construction of the context. *)
Definition internal_event (ev : Event) : Prop :=
  match ev with
  | EvSetTimeout _ _ | EvClearTimeout _ | EvTimerFired _ | EvFrom _ _ => True
  | _ => False
  end.

(** Events that call neither the network nor the driver. *)
Definition quiet_event (ev : Event) : Prop :=
  match ev with
  | EvFetch _ | EvConnect _ | EvDisconnect => False
  | _ => True
  end.

(** A failure of the HTTP path of the address resolution, with the
    message of its cause: the request fails, the response is not [ok],
    the body does not parse, or it parses to [null]. *)
Inductive resolution_failure : FetchResult → string → Prop :=
| fetch_rejected reason :
    resolution_failure (FetchRejects reason) (message_of reason)
| response_not_ok statusText body :
    resolution_failure (FetchResponse false statusText body)
      ("Failed to fetch browser info: " +:+ statusText)
| body_rejected statusText reason :
    resolution_failure (FetchResponse true statusText (JsonRejects reason))
      (message_of reason)
| body_null statusText :
    resolution_failure (FetchResponse true statusText JsonNull)
      null_property_message.

(** ** A concrete environment, for running the definitions *)

Module Sample.

(** Node's [setTimeout] arms for 1 ms when the delay is below 1 or above
    2^31 - 1. *)
Definition node_timer_delay (ms : Z) : nat :=
  if (1 <=? ms)%Z && (ms <=? 2147483647)%Z then Z.to_nat ms else 1%nat.

(** The text up to and including the first colon. *)
Definition protocol_of (url : string) : option string :=
  match String.index 0 ":" url with
  | Some n => Some (String.substring 0 (S n) url)
  | None => None
  end.

Definition live : Browser := mkBrowser 1 true.
Definition stale : Browser := mkBrowser 2 false.
Definition old_context : McpContext := McpContextRef 0.

Definition version_body (url : string) : FetchResult :=
  if bool_decide (url = "http://127.0.0.1:9222/json/version") then
    FetchResponse true "OK"
      (JsonData (Some "ws://127.0.0.1:9222/devtools/browser/abc"))
  else if bool_decide (url = "http://127.0.0.1:9333/json/version") then
    FetchResponse false "Not Found" JsonNull
  else FetchRejects (ErrorObj "fetch failed").

(** The driver: one endpoint answers after 20 ms with a live handle,
    one after 5 ms with a handle that is not connected, one with no
    handle, one refuses, and all others never answer. *)
Definition driver (a : ConnectArgs) : ConnectOp :=
  match ca_wsEndpoint a with
  | Some "ws://127.0.0.1:9222/devtools/browser/abc" =>
      Settles 20 (Fulfilled (Some live))
  | Some "ws://127.0.0.1:9222/devtools/browser/stale" =>
      Settles 5 (Fulfilled (Some stale))
  | Some "ws://127.0.0.1:9222/devtools/browser/none" =>
      Settles 5 (Fulfilled None)
  | Some "ws://127.0.0.1:1/devtools/browser/x" =>
      Settles 3 (Rejected (ErrorObj "connect ECONNREFUSED 127.0.0.1:1"))
  | _ => NeverSettles
  end.

Definition build (b : Browser) (o : FromOptions) : Thrown + McpContext :=
  if bool_decide (browser_id b = 9%nat) then
    inl (ErrorObj "No pages found")
  else inr (McpContextRef (browser_id b)).

Definition env : Env :=
  mkEnv protocol_of node_timer_delay version_body driver build None None.

Definition start : World := mkWorld None ∅ [].
Definition connected_world : World := mkWorld (Some old_context) ∅ [].

Definition ws_options (endpoint : string) (timeout : option Z) : SetContextOptions :=
  mkSetContextOptions None (Some endpoint) None None timeout.

Definition live_endpoint : string := "ws://127.0.0.1:9222/devtools/browser/abc".
Definition stale_endpoint : string := "ws://127.0.0.1:9222/devtools/browser/stale".
Definition no_handle_endpoint : string := "ws://127.0.0.1:9222/devtools/browser/none".
Definition refusing_endpoint : string := "ws://127.0.0.1:1/devtools/browser/x".
Definition no_address (timeout : option Z) : SetContextOptions :=
  mkSetContextOptions None None None None timeout.

(** A small document: a body with a heading and a list of two items,
    the second of which holds a link. *)
Definition link : Layout.Element :=
  Layout.mkElement "A" "" None [("href", "/next")] [Layout.TextChild "next"].
Definition item1 : Layout.Element :=
  Layout.mkElement "LI" "" (Some "item") [("class", "item")]
    [Layout.TextChild " one "].
Definition item2 : Layout.Element :=
  Layout.mkElement "LI" "" (Some "item") [("class", "item")]
    [Layout.TextChild "two"; Layout.ElementChild link].
Definition items : Layout.Element :=
  Layout.mkElement "UL" "menu" None [("id", "menu")]
    [Layout.ElementChild item1; Layout.OtherChild; Layout.ElementChild item2].
Definition heading : Layout.Element :=
  Layout.mkElement "H1" "" (Some " title ") [("class", " title ")]
    [Layout.TextChild "Welcome"].
Definition document_body : Layout.Element :=
  Layout.mkElement "BODY" "" None []
    [Layout.TextChild "  "; Layout.ElementChild heading;
     Layout.ElementChild items].

Definition page : Layout.Page :=
  Layout.mkPage
    (λ sel, if bool_decide (sel = "#menu") then inr (Some items)
            else if bool_decide (sel = "::") then
              inl (ErrorObj "'::' is not a valid selector")
            else inr None)
    (λ _ _, Some heading)
    (Some document_body)
    (λ el _, Layout.toLowerCase (Layout.el_tagName el)).

Definition tree_args (maxDepth : Q) : Layout.DomTreeParams :=
  Layout.mkDomTreeParams None maxDepth false true.

End Sample.

(** ** tools/layout.ts: the other tools *)

Module Tools.

(** What a handler does to the context, the page and the response. *)
Inductive Effect :=
| Evaluated (page : nat)
| Selected (page : nat)
| ScrolledTo (target : option string) (left top : Q) (smooth : bool)
| PropertySet (prop value : string)
| PropertyRemoved (prop : string)
| Line (line : string).

(** A step of a handler: its outcome and the effects it had. *)
Definition Run (A : Type) : Type := Outcome A * list Effect.

Definition done_with {A} (a : A) : Run A := (Returned a, []).

Definition failed {A} (e : Thrown) : Run A := (Threw e, []).

Definition effect (f : Effect) : Run unit := (Returned (), [f]).

Definition and_then {A B} (m : Run A) (k : A → Run B) : Run B :=
  match m with
  | (Returned a, effects) => let '(o, more) := k a in (o, effects ++ more)
  | (Threw e, effects) => (Threw e, effects)
  | (Pending, effects) => (Pending, effects)
  end.



(** *** select_active_page *)

(** A page of the context: its [url()] and what evaluating
    [document.visibilityState === 'visible'] in it gives. *)
Record Tab := mkTab {
  url : string;
  visible : Thrown + bool;
}.

(** The context: [getPageByIdx(i)] gives a page or throws;
    [selectPage] of the page at [i] throws or not. *)
Record Pages := mkPages {
  getPageByIdx : nat → Thrown + Tab;
  selectPage_throws : nat → bool;
}.

Definition no_active_page : string := "No active (visible) page found to select.".

(** The loop [for (let i = 0; ; i++)], from index [i]: the effects and
    the final [selectedPageUrl]; [None] when it is still running after
    [fuel] rounds. *)
Fixpoint scan (C : Pages) (fuel i : nat) : option (list Effect * string) :=
  match fuel with
  | O => None
  | S fuel =>
      match getPageByIdx C i with
      | inl _ => Some ([], "")
      | inr page =>
          match visible page with
          | inl _ => Some ([Evaluated i], "")
          | inr true =>
              if selectPage_throws C i then Some ([Evaluated i], "")
              else Some ([Evaluated i; Selected i], url page)
          | inr false =>
              match scan C fuel (S i) with
              | Some (effects, selectedPageUrl) =>
                  Some (Evaluated i :: effects, selectedPageUrl)
              | None => None
              end
          end
      end
  end.

Definition selectActivePage (C : Pages) (fuel : nat) : option (list Effect) :=
  match scan C fuel 0 with
  | Some (effects, selectedPageUrl) =>
      Some (effects ++
            [Line (if Layout.truthy_string (Some selectedPageUrl)
                   then "Successfully selected active page: " +:+ selectedPageUrl
                   else no_active_page)])
  | None => None
  end.

(** The pages before [k] are there and not visible. *)
Definition hidden_before (C : Pages) (k : nat) : Prop :=
  ∀ j, (j < k)%nat →
    ∃ page, getPageByIdx C j = inr page ∧ visible page = inr false.

(** *** scroll_element *)









(** *** inject_custom_css *)

(** The page: the elements by selector. *)
Record Stylist := mkStylist {
  query_element : string → Thrown + option nat;
}.

(** The value the in-page function returns: the error record, or the
    report on the element with the styles it applied. *)
Inductive InjectResult :=
| InjectError (error : string)
| InjectReport (el : nat) (applied : list (string * string)).

(** The loop over [Object.entries(args.css)], the entries in the order
    of the object. *)
Fixpoint apply_css (css : list (string * string)) : Run unit :=
  match css with
  | [] => done_with ()
  | (prop, value) :: rest =>
      and_then
        (if bool_decide (value = "") then effect (PropertyRemoved prop)
         else effect (PropertySet prop value))
        (λ _, apply_css rest)
  end.

Definition inject_in_page (S : Stylist) (selector : string)
    (css : list (string * string)) : Run InjectResult :=
  match query_element S selector with
  | inl e => failed e
  | inr None => done_with (InjectError ("Element not found: " +:+ selector))
  | inr (Some el) =>
      and_then (apply_css css) (λ _, done_with (InjectReport el css))
  end.

(** The handler; [JSON_stringify result] is
    [JSON.stringify(result, null, 2)]. *)
Definition injectCustomCss (S : Stylist)
    (JSON_stringify : InjectResult → string) (selector : string)
    (css : list (string * string)) : Run unit :=
  and_then (inject_in_page S selector css)
    (λ result,
       match result with
       | InjectError error =>
           if Layout.truthy_string (Some error) then effect (Line error)
           else effect (Line (JSON_stringify result))
       | InjectReport _ _ => effect (Line (JSON_stringify result))
       end).

Section InlineStyle.
Context {Style : Type}.
Context (setProperty : string → string → Style → Style).
Context (removeProperty : string → Style → Style).

(** The inline style of the element after the style operations among
    [effects], in their order. *)
Fixpoint restyle (effects : list Effect) (style : Style) : Style :=
  match effects with
  | [] => style
  | PropertySet prop value :: rest => restyle rest (setProperty prop value style)
  | PropertyRemoved prop :: rest => restyle rest (removeProperty prop style)
  | _ :: rest => restyle rest style
  end.

End InlineStyle.

(** *** inspect_element: [getSelector] *)

(** What [getSelector] reads of an element; [ident] stands for the
    identity of the object. *)
Record Node := mkNode {
  ident : nat;
  tagName : string;
  id : string;
}.

(** An element with its ancestors: [Under e siblings parent] is [e]
    whose [parentElement] is the first element of [parent] and whose
    parent's [children] are [siblings], by identity; [Top e] has no
    [parentElement]. *)
Inductive Chain :=
| Top (e : Node)
| Under (e : Node) (siblings : list nat) (parent : Chain).

Definition current_node (c : Chain) : Node :=
  match c with
  | Top e => e
  | Under e _ _ => e
  end.

(** The document: [document.body] and [document.documentElement], and
    [CSS.escape]. *)
Record Doc := mkDoc {
  doc_body : option nat;
  documentElement : option nat;
  CSS_escape : string → string;
}.

(** The loop that counts [index] up to the position of [current] among
    [siblings], from 1. *)
Fixpoint nth_child_index (current : nat) (siblings : list nat) : nat :=
  match siblings with
  | [] => 1
  | sibling :: rest =>
      if decide (sibling = current) then 1%nat
      else S (nth_child_index current rest)
  end.

(** The [while (current)] loop, with [path] as built so far. *)
Fixpoint walk (D : Doc) (current : Chain) (path : list string) : list string :=
  let e := current_node current in
  if Layout.truthy_string (Some (id e)) then
    ("#" +:+ CSS_escape D (id e)) :: path
  else if decide (doc_body D = Some (ident e)) then "body" :: path
  else if decide (documentElement D = Some (ident e)) then "html" :: path
  else
    match current with
    | Top _ => Layout.toLowerCase (tagName e) :: path
    | Under _ siblings parent =>
        let selector :=
          if (1 <? length siblings)%nat then
            Layout.toLowerCase (tagName e) +:+ ":nth-child(" +:+
            pretty (nth_child_index (ident e) siblings) +:+ ")"
          else Layout.toLowerCase (tagName e) in
        walk D parent (selector :: path)
    end.

(** [path.join(' > ')] *)
Fixpoint join (path : list string) : string :=
  match path with
  | [] => ""
  | [segment] => segment
  | segment :: rest => segment +:+ " > " +:+ join rest
  end.

Definition getSelector (D : Doc) (element : option Chain) : string :=
  match element with
  | None => ""
  | Some current => join (walk D current [])
  end.

(** The elements of a chain, innermost first. *)
Fixpoint nodes_of (c : Chain) : list Node :=
  match c with
  | Top e => [e]
  | Under e _ parent => e :: nodes_of parent
  end.

(** An element at which the walk stops: it has an id, or is the body or
    the document element. *)
Definition anchor (D : Doc) (e : Node) : bool :=
  Layout.truthy_string (Some (id e))
  || bool_decide (doc_body D = Some (ident e))
  || bool_decide (documentElement D = Some (ident e)).

End Tools.

(** ** More fixtures *)

Module Fixtures.

(** A control endpoint whose version document has no
    [webSocketDebuggerUrl]; the driver connects through the
    [browserURL]. *)
Definition bare_version (url : string) : FetchResult :=
  if bool_decide (url = "http://127.0.0.1:9444/json/version") then
    FetchResponse true "OK" (JsonData None)
  else FetchRejects (NonError "offline").

Definition url_driver (a : ConnectArgs) : ConnectOp :=
  match ca_browserURL a with
  | Some _ => Settles 7 (Fulfilled (Some (mkBrowser 4 true)))
  | None => NeverSettles
  end.

Definition env : Env :=
  mkEnv Sample.protocol_of Sample.node_timer_delay bare_version url_driver
    Sample.build (Some true) None.

(** Three pages: two in the background, then the visible one; there is
    no fourth. *)
Definition three_pages : Tools.Pages :=
  Tools.mkPages
    (λ i, match i with
          | 0 => inr (Tools.mkTab "https://a.example/" (inr false))
          | 1 => inr (Tools.mkTab "https://b.example/" (inr false))
          | 2 => inr (Tools.mkTab "https://c.example/" (inr true))
          | _ => inl (ErrorObj "No page found")
          end%nat)
    (λ _, false).

(** A page that was closed in front of a visible one. *)
Definition closed_page_first : Tools.Pages :=
  Tools.mkPages
    (λ i, match i with
          | 0 => inr (Tools.mkTab "https://a.example/" (inr false))
          | 1 => inr (Tools.mkTab "https://b.example/"
                        (inl (ErrorObj "Target closed")))
          | 2 => inr (Tools.mkTab "https://c.example/" (inr true))
          | _ => inl (ErrorObj "No page found")
          end%nat)
    (λ _, false).

(** A context that answers every index with a page in the background. *)
Definition endless_pages : Tools.Pages :=
  Tools.mkPages (λ _, inr (Tools.mkTab "about:blank" (inr false))) (λ _, false).



Definition stylist : Tools.Stylist :=
  Tools.mkStylist
    (λ sel, if bool_decide (sel = "#list") then inr (Some 7%nat)
            else if bool_decide (sel = "") then
              inl (ErrorObj "The provided selector is empty")
            else inr None).

(** An inline style as a finite map; a property that is not set reads
    as the empty string. *)
Definition style_get (style : gmap string string) (prop : string) : string :=
  default "" (style !! prop).

(** A list item, third of four children of a list that is the only
    child of the body. *)
Definition doc : Tools.Doc := Tools.mkDoc (Some 2%nat) (Some 1%nat) (λ s, s).
Definition html_chain : Tools.Chain := Tools.Top (Tools.mkNode 1 "HTML" "").
Definition body_chain : Tools.Chain :=
  Tools.Under (Tools.mkNode 2 "BODY" "") [9; 2]%nat html_chain.
Definition list_chain : Tools.Chain :=
  Tools.Under (Tools.mkNode 3 "UL" "") [3]%nat body_chain.
Definition item_chain : Tools.Chain :=
  Tools.Under (Tools.mkNode 6 "LI" "") [4; 5; 6; 7]%nat list_chain.

End Fixtures.

(** ** Further vocabulary *)

Module Tree.

(** The other fields of a serialized node. *)
Definition tagName (n : Layout.DomNode) : string :=
  let 'Layout.mkDomNode t _ _ _ _ _ _ := n in t.
Definition id (n : Layout.DomNode) : option string :=
  let 'Layout.mkDomNode _ i _ _ _ _ _ := n in i.
Definition className (n : Layout.DomNode) : option string :=
  let 'Layout.mkDomNode _ _ c _ _ _ _ := n in c.
Definition attributes (n : Layout.DomNode) : option (list (string * string)) :=
  let 'Layout.mkDomNode _ _ _ a _ _ _ := n in a.
Definition text (n : Layout.DomNode) : option string :=
  let 'Layout.mkDomNode _ _ _ _ x _ _ := n in x.

(** The number of levels of elements below an element. *)
Fixpoint height (e : Layout.Element) : nat :=
  let 'Layout.mkElement _ _ _ _ nodes := e in
  (fix each (l : list Layout.ChildNode) : nat :=
     match l with
     | [] => 0
     | Layout.ElementChild c :: rest => max (S (height c)) (each rest)
     | _ :: rest => each rest
     end)%nat nodes.

(** The number of elements of a subtree, its root included. *)
Fixpoint size (e : Layout.Element) : nat :=
  let 'Layout.mkElement _ _ _ _ nodes := e in
  S ((fix each (l : list Layout.ChildNode) : nat :=
        match l with
        | [] => 0
        | Layout.ElementChild c :: rest => size c + each rest
        | _ :: rest => each rest
        end)%nat nodes).

End Tree.

(** The style operation of one entry of the [css] argument. *)
Definition style_op (entry : string * string) : Tools.Effect :=
  if bool_decide (entry.2 = "") then Tools.PropertyRemoved entry.1
  else Tools.PropertySet entry.1 entry.2.

(** A chain cut above its first anchor. *)
Fixpoint up_to_anchor (D : Tools.Doc) (c : Tools.Chain) : Tools.Chain :=
  match c with
  | Tools.Top e => Tools.Top e
  | Tools.Under e siblings parent =>
      if Tools.anchor D e then Tools.Top e
      else Tools.Under e siblings (up_to_anchor D parent)
  end.

(** The last line the handler of [switch_browser] appends. *)
Definition connected_line : string := "âœ“ Successfully connected to browser".

(** * Properties *)

(** ** Running the monad *)

Lemma occurs_in_intro (before needle after hay : string) :
  hay = before +:+ needle +:+ after → occurs_in needle hay.
Proof. intros ->. by exists before, after. Qed.

Lemma append_assoc (a b c : string) : (a +:+ b) +:+ c = a +:+ b +:+ c.
Proof.
  induction a as [|x a IH]; [done|].
  change (String x ((a +:+ b) +:+ c) = String x (a +:+ b +:+ c)).
  by rewrite IH.
Qed.

Lemma internal_event_quiet (ev : Event) : internal_event ev → quiet_event ev.
Proof. by destruct ev. Qed.

(** One case distinction on the innermost scrutinee of the goal. *)
Ltac step :=
  match goal with
  | |- context [match ?x with _ => _ end] =>
      lazymatch x with
      | context [match _ with _ => _ end] => fail
      | _ => destruct x eqn:?
      end
  | |- context [if ?x then _ else _] =>
      lazymatch x with
      | context [if _ then _ else _] => fail
      | _ => destruct x eqn:?
      end
  end; simpl in *.

(** Unfolds the operations of [Async]. *)
Ltac run_async :=
  unfold bind, ret, throw, emit, assign_context, settle, try_finally,
    try_catch, setTimeout, clearTimeout, fire in *; simpl in *.

Lemma events_since_app (w w' : World) (evs : list Event) :
  trace w' = trace w ++ evs → events_since w w' = evs.
Proof. unfold events_since. intros ->. by rewrite drop_app_length. Qed.

(** Rewrites [events_since w w'] to the events [w'] has appended. *)
Ltac since_trace :=
  erewrite events_since_app; [|simpl; rewrite <- ?app_assoc; reflexivity].

(** Membership of an event in an explicit list of events. *)
Ltac in_trace :=
  rewrite list_elem_of_In; simpl; intuition (discriminate || congruence).

Section ContextProperties.
Context (E : Env).

(** The registry after [setContext]: the new context when it returned
    one, and what it was before in every other case. *)
Lemma setContext_registry options w :
  context (setContext E options w).2 =
    match (setContext E options w).1 with
    | Returned c => Some c
    | _ => context w
    end.
Proof.
  unfold setContext, race, await_connect, from. run_async.
  repeat (step; run_async); done.
Qed.

(** [setContext] starts the connect operation first; everything after
    it is timers and context construction. *)
Lemma setContext_events options w :
  ∃ evs, trace (setContext E options w).2 =
           trace w ++ EvConnect (connect_args options) :: evs
         ∧ Forall internal_event evs.
Proof.
  unfold setContext, race, await_connect, from. run_async.
  repeat (step; run_async);
    rewrite <- ?app_assoc; simpl; eexists; (split; [reflexivity|]);
    repeat constructor.
Qed.

(** The registry after [switchBrowser] holds a context only when the
    switch returned. *)
Lemma switchBrowser_registry url timeout w :
  (∀ r, (switchBrowser E url timeout w).1 ≠ Returned r) →
  context (switchBrowser E url timeout w).2 = None.
Proof.
  unfold switchBrowser, disconnectBrowser, convertHttpToBrowserUrl,
    appendResponseLine.
  run_async.
  repeat
    (match goal with
     | |- context [setContext E ?o ?w1] =>
         let H := fresh "H" in
         pose proof (setContext_registry o w1) as H;
         destruct (setContext E o w1) as [[c|e|] w2]; simpl in *
     | _ => step; run_async
     end);
    intros Hne; try done; by destruct (Hne ()).
Qed.

(** The tail of [switchBrowser]: the connect call with the options as
    given, then only timers, context construction and the response. *)
Lemma connect_and_report_events options line w :
  ∃ evs,
    trace (bind (setContext E options) (λ _, appendResponseLine line) w).2
    = trace w ++ EvConnect (connect_args options) :: evs
    ∧ Forall quiet_event evs.
Proof.
  destruct (setContext_events options w) as (evs & Htrace & Hevs).
  pose proof (Forall_impl _ _ _ Hevs internal_event_quiet) as Hquiet.
  unfold bind, appendResponseLine, emit.
  destruct (setContext E options w) as [[c|e|] w1]; simpl in *;
    rewrite Htrace; [exists (evs ++ [EvResponseLine line])|exists evs..];
    (split; [by rewrite <- ?app_assoc|]); [|done..].
  apply Forall_app. split; [done|]. by repeat constructor.
Qed.

End ContextProperties.

(** ** The registry after a failed attempt *)

(** C1. A failed [setContext] (the connect operation rejects, the timer
    fires first, the handle is missing, or the context cannot be built)
    leaves the registry as it was when [setContext] is called directly,
    and leaves it empty when the call is made by [switchBrowser], whose
    teardown has emptied the registry by then. *)
Theorem failed_attempt_registry (E : Env) (options : SetContextOptions)
    (url : string) (timeout : option Z) (w : World) (e : Thrown) :
  ((setContext E options w).1 = Threw e →
   getContext (setContext E options w).2 = getContext w)
  ∧ ((switchBrowser E url timeout w).1 = Threw e →
     getContext (switchBrowser E url timeout w).2 = None).
Proof.
  split; intros Hfail.
  - unfold getContext. rewrite setContext_registry. by rewrite Hfail.
  - apply switchBrowser_registry. intros r. by rewrite Hfail.
Qed.

Lemma failed_attempt_registry_witness :
  getContext
    (setContext Sample.env
       (Sample.ws_options "ws://127.0.0.1:1/devtools/browser/x" (Some 50))
       Sample.connected_world).2 = Some Sample.old_context
  ∧ getContext
      (switchBrowser Sample.env "ws://127.0.0.1:1/devtools/browser/x" None
         Sample.connected_world).2 = None.
Proof.
  destruct (failed_attempt_registry Sample.env
              (Sample.ws_options "ws://127.0.0.1:1/devtools/browser/x" (Some 50))
              "ws://127.0.0.1:1/devtools/browser/x" None
              Sample.connected_world
              (ErrorObj "connect ECONNREFUSED 127.0.0.1:1")) as [Hdirect Hswitch].
  split; [apply Hdirect | apply Hswitch]; reflexivity.
Defined.

(** ** The check of the handle *)

(** C2, as the code has it.  When the connect operation resolves with no
    handle, [setContext] fails with the "browser object is undefined"
    error and [McpContext.from] is not called.  Any handle, whatever its
    [connected] flag says, is passed to [McpContext.from], whose outcome
    is the outcome of [setContext]. *)
Theorem handle_check (E : Env) (options : SetContextOptions) (w : World)
    (h : option Browser) :
  connect_resolves E options h →
  match h with
  | None =>
      (setContext E options w).1 = Threw (ErrorObj ConnectionFailed)
      ∧ ∀ b o, EvFrom b o ∉ events_since w (setContext E options w).2
  | Some b =>
      EvFrom b (from_options options) ∈ events_since w (setContext E options w).2
      ∧ (setContext E options w).1 =
          match McpContext_from E b (from_options options) with
          | inl e => Threw e
          | inr c => Returned c
          end
  end.
Proof.
  intros (at_ms & Hop & Hrace).
  unfold setContext, race, await_connect, from. rewrite Hop.
  destruct (truthy_number (timeout options)) eqn:Htimer;
    [specialize (Hrace eq_refl); run_async;
     destruct (decide _) as [_|Hge]; [|done] | run_async];
    (destruct h as [b|]; simpl;
     [destruct (McpContext_from E b (from_options options)); simpl;
      (split; [|done])
     |split; [done|]; intros b o]);
    since_trace; in_trace.
Qed.

Lemma handle_check_witness :
  (setContext Sample.env (Sample.ws_options Sample.no_handle_endpoint (Some 50))
     Sample.start).1 = Threw (ErrorObj ConnectionFailed)
  ∧ ∀ b o, EvFrom b o ∉
      events_since Sample.start
        (setContext Sample.env
           (Sample.ws_options Sample.no_handle_endpoint (Some 50)) Sample.start).2.
Proof.
  apply (handle_check Sample.env
           (Sample.ws_options Sample.no_handle_endpoint (Some 50))
           Sample.start None).
  exists 5%nat. split; [reflexivity | intros _; vm_compute; lia].
Defined.

(** C2 as stated fails: a handle that reports not-connected is built
    into a context, which [setContext] installs and returns. *)
Lemma disconnected_handle_accepted :
  connect_resolves Sample.env
    (Sample.ws_options Sample.stale_endpoint (Some 50)) (Some Sample.stale)
  ∧ connected Sample.stale = false
  ∧ (setContext Sample.env (Sample.ws_options Sample.stale_endpoint (Some 50))
       Sample.connected_world).1 = Returned (McpContextRef 2)
  ∧ EvFrom Sample.stale (mkFromOptions false false) ∈
      events_since Sample.connected_world
        (setContext Sample.env
           (Sample.ws_options Sample.stale_endpoint (Some 50))
           Sample.connected_world).2
  ∧ getContext
      (setContext Sample.env (Sample.ws_options Sample.stale_endpoint (Some 50))
         Sample.connected_world).2 = Some (McpContextRef 2).
Proof.
  split; [|split; [|split; [|split]]]; try reflexivity.
  - exists 5%nat. split; [reflexivity | intros _; vm_compute; lia].
  - rewrite list_elem_of_In. vm_compute. auto 10.
Qed.

(** ** The timeout race *)

(** C3. When a timer is armed for [ms] and the connect operation has not
    settled when it fires, [setContext] fails with the timeout error;
    its message carries the duration ["<ms>ms"] and the advice to check
    that the browser is running and accessible at the provided URL. *)
Theorem timeout_error (E : Env) (options : SetContextOptions) (w : World)
    (ms : Z) :
  timer_fires_first E options ms →
  (setContext E options w).1 = Threw (ErrorObj (ConnectionTimeout ms))
  ∧ occurs_in (pretty ms +:+ "ms") (ConnectionTimeout ms)
  ∧ occurs_in
      "check that the browser is running and accessible at the provided URL"
      (ConnectionTimeout ms).
Proof.
  intros (Hms & Htimer & Hop). split; [|split].
  - unfold setContext, race. rewrite Htimer, Hms. run_async.
    destruct (ensureBrowserConnected E (connect_args options)) as [at_ms s|];
      [destruct (decide _); [done|]|]; done.
  - apply (occurs_in_intro "Failed to connect to browser within " _
             ". Please check that the browser is running and accessible at the provided URL.").
    unfold ConnectionTimeout. by rewrite append_assoc.
  - apply (occurs_in_intro
             ("Failed to connect to browser within " +:+ pretty ms +:+ "ms. Please ")
             _ ".").
    unfold ConnectionTimeout. by rewrite !append_assoc.
Qed.

Lemma timeout_error_witness :
  (setContext Sample.env (Sample.ws_options Sample.live_endpoint (Some 10))
     Sample.start).1 =
    Threw (ErrorObj
      "Failed to connect to browser within 10ms. Please check that the browser is running and accessible at the provided URL.")
  ∧ occurs_in "10ms" (ConnectionTimeout 10)
  ∧ occurs_in
      "check that the browser is running and accessible at the provided URL"
      (ConnectionTimeout 10).
Proof.
  apply (timeout_error Sample.env
           (Sample.ws_options Sample.live_endpoint (Some 10)) Sample.start 10).
  split; [reflexivity | split; [reflexivity | vm_compute; lia]].
Defined.

(** C4. When the connect operation settles (resolves or rejects) before
    the armed timer fires, [setContext] clears that timer right after
    the race, before it builds the context, returns or throws: the
    timer never fires and is not armed when [setContext] is done. *)
Theorem timer_cleared_when_connect_wins (E : Env) (options : SetContextOptions)
    (w : World) (at_ms : nat) (s : Settled (option Browser)) :
  connect_settles_first E options at_ms s →
  events_since w (setContext E options w).2 =
    EvConnect (connect_args options)
    :: EvSetTimeout (fresh (dom (timers w))) (default 0 (timeout options))
    :: EvClearTimeout (fresh (dom (timers w)))
    :: match s with
       | Fulfilled (Some b) => [EvFrom b (from_options options)]
       | _ => []
       end
  ∧ timers (setContext E options w).2 = timers w
  ∧ timers (setContext E options w).2 !! fresh (dom (timers w)) = None
  ∧ (setContext E options w).1 ≠ Pending.
Proof.
  intros (Htimer & Hop & Hlt).
  assert (Hfresh : timers w !! fresh (dom (timers w)) = None)
    by (apply not_elem_of_dom, is_fresh).
  unfold setContext, race, from. rewrite Htimer, Hop. run_async.
  destruct (decide _) as [_|]; [|done].
  destruct s as [[b|]|reason]; simpl;
    [destruct (McpContext_from E b (from_options options)); simpl| |];
    rewrite delete_insert_id by done;
    (split; [by since_trace|done]).
Qed.

Lemma timer_cleared_when_connect_wins_witness :
  events_since Sample.start
    (setContext Sample.env (Sample.ws_options Sample.live_endpoint (Some 50))
       Sample.start).2 =
    [EvConnect (mkConnectArgs None (Some Sample.live_endpoint) false);
     EvSetTimeout 0 50; EvClearTimeout 0;
     EvFrom Sample.live (mkFromOptions false false)]
  ∧ timers
      (setContext Sample.env (Sample.ws_options Sample.live_endpoint (Some 50))
         Sample.start).2 = ∅.
Proof.
  destruct (timer_cleared_when_connect_wins Sample.env
              (Sample.ws_options Sample.live_endpoint (Some 50)) Sample.start
              20 (Fulfilled (Some Sample.live))) as (Hevents & Htimers & _).
  - split; [reflexivity | split; [reflexivity | vm_compute; lia]].
  - split; [exact Hevents | exact Htimers].
Defined.

(** ** Arguments that are not checked *)

(** C5 as stated fails: [setContext] accepts a timeout of 0 and returns
    a context; with a negative timeout it fails only once the timer has
    fired, with the timeout error; and with no address at all it starts
    the connect operation all the same. *)
Lemma nonpositive_timeout_accepted :
  (setContext Sample.env (Sample.ws_options Sample.live_endpoint (Some 0))
     Sample.start).1 = Returned (McpContextRef 1)
  ∧ (setContext Sample.env (Sample.ws_options Sample.live_endpoint (Some (-5)))
       Sample.start)
    = (Threw (ErrorObj (ConnectionTimeout (-5))),
       mkWorld None ∅
         [EvConnect (mkConnectArgs None (Some Sample.live_endpoint) false);
          EvSetTimeout 0 (-5); EvTimerFired 0; EvClearTimeout 0])
  ∧ setContext Sample.env (Sample.no_address (Some 0)) Sample.start
    = (Pending, mkWorld None ∅ [EvConnect (mkConnectArgs None None false)]).
Proof. split; [|split]; reflexivity. Qed.

(** C5, as the code has it.  [setContext] checks neither the addresses
    nor the timeout: its first effect is always the call of the connect
    operation with the addresses as given; a timeout of 0 behaves as no
    timeout; any other timeout, negative ones too, arms the timer; and
    when [setContext] fails, the error is the timeout error, the
    missing-handle error, the rejection of the connect operation or the
    failure of [McpContext.from]. *)
Theorem setContext_checks_no_argument (E : Env) (options : SetContextOptions)
    (w : World) :
  (∃ evs, events_since w (setContext E options w).2
          = EvConnect (connect_args options) :: evs)
  ∧ (timeout options = Some 0 →
     setContext E options w = setContext E (with_timeout options None) w)
  ∧ (∀ ms, timeout options = Some ms → ms ≠ 0 →
       ∃ evs, events_since w (setContext E options w).2
              = EvConnect (connect_args options)
                :: EvSetTimeout (fresh (dom (timers w))) ms :: evs)
  ∧ (∀ e, (setContext E options w).1 = Threw e →
       e = ErrorObj (ConnectionTimeout (default 0 (timeout options)))
       ∨ e = ErrorObj ConnectionFailed
       ∨ (∃ at_ms, ensureBrowserConnected E (connect_args options)
                   = Settles at_ms (Rejected e))
       ∨ (∃ b, McpContext_from E b (from_options options) = inl e)).
Proof.
  split; [|split; [|split]].
  - destruct (setContext_events E options w) as (evs & Htrace & _).
    exists evs. by apply events_since_app.
  - intros Hzero. unfold setContext. by rewrite Hzero.
  - intros ms Hms Hnonzero.
    unfold setContext, race, from. rewrite Hms. simpl.
    rewrite (proj2 (Z.eqb_neq ms 0) Hnonzero). run_async.
    repeat (step; run_async); eexists; by since_trace.
  - intros e. unfold setContext, race, await_connect, from. run_async.
    repeat (step; run_async); intros [= <-]; eauto 6.
Qed.

Lemma setContext_checks_no_argument_witness :
  setContext Sample.env (Sample.no_address (Some 0)) Sample.start
  = setContext Sample.env (Sample.no_address None) Sample.start
  ∧ (∃ evs,
       events_since Sample.start
         (setContext Sample.env (Sample.no_address (Some (-5))) Sample.start).2
       = EvConnect (mkConnectArgs None None false) :: EvSetTimeout 0 (-5) :: evs)
  ∧ (ErrorObj "connect ECONNREFUSED 127.0.0.1:1"
     = ErrorObj (ConnectionTimeout 50)
     ∨ ErrorObj "connect ECONNREFUSED 127.0.0.1:1" = ErrorObj ConnectionFailed
     ∨ (∃ at_ms,
          Sample.driver (mkConnectArgs None (Some Sample.refusing_endpoint) false)
          = Settles at_ms (Rejected (ErrorObj "connect ECONNREFUSED 127.0.0.1:1")))
     ∨ (∃ b, Sample.build b (mkFromOptions false false)
             = inl (ErrorObj "connect ECONNREFUSED 127.0.0.1:1"))).
Proof.
  destruct (setContext_checks_no_argument Sample.env
              (Sample.no_address (Some 0)) Sample.start) as (_ & Hzero & _).
  destruct (setContext_checks_no_argument Sample.env
              (Sample.no_address (Some (-5))) Sample.start)
    as (_ & _ & Harmed & _).
  destruct (setContext_checks_no_argument Sample.env
              (Sample.ws_options Sample.refusing_endpoint (Some 50))
              Sample.start) as (_ & _ & _ & Hsources).
  split; [|split].
  - apply Hzero. reflexivity.
  - apply (Harmed (-5)); [reflexivity | lia].
  - apply Hsources. reflexivity.
Defined.

(** ** The locator given to [switchBrowser] *)

(** C6. For a locator whose protocol is none of [http:], [https:],
    [ws:], [wss:], [switchBrowser] throws the unsupported-protocol
    error, whose message names the protocol; the world is the one the
    disconnect of the teardown left, so nothing was fetched and no
    connect was started. *)
Theorem unsupported_protocol (E : Env) (url : string) (timeout : option Z)
    (w : World) (protocol : string) :
  URL_protocol E url = Some protocol →
  protocol ∉ ["http:"; "https:"; "ws:"; "wss:"] →
  switchBrowser E url timeout w
  = (Threw (ErrorObj (UnsupportedProtocol protocol)), (disconnectBrowser w).2)
  ∧ occurs_in protocol (UnsupportedProtocol protocol)
  ∧ events_since w (switchBrowser E url timeout w).2 = [EvDisconnect].
Proof.
  intros Hurl Hother.
  assert (is_ws protocol = false) as Hws.
  { unfold is_ws. rewrite !bool_decide_eq_false_2; [done|..];
      intros ->; apply Hother; in_trace. }
  assert (is_http protocol = false) as Hhttp.
  { unfold is_http. rewrite !bool_decide_eq_false_2; [done|..];
      intros ->; apply Hother; in_trace. }
  assert (switchBrowser E url timeout w
          = (Threw (ErrorObj (UnsupportedProtocol protocol)),
             (disconnectBrowser w).2)) as Heq.
  { unfold switchBrowser, disconnectBrowser. run_async.
    rewrite Hurl. simpl. by rewrite Hws, Hhttp. }
  split; [done|split].
  - by apply (occurs_in_intro "Unsupported protocol: " _
                ". Expected http://, https://, ws://, or wss://").
  - rewrite Heq. by since_trace.
Qed.

Lemma unsupported_protocol_witness :
  switchBrowser Sample.env "ftp://host" None Sample.connected_world
  = (Threw (ErrorObj
       "Unsupported protocol: ftp:. Expected http://, https://, ws://, or wss://"),
     mkWorld None ∅ [EvDisconnect])
  ∧ occurs_in "ftp:" (UnsupportedProtocol "ftp:")
  ∧ events_since Sample.connected_world
      (switchBrowser Sample.env "ftp://host" None Sample.connected_world).2
    = [EvDisconnect].
Proof.
  apply (unsupported_protocol Sample.env "ftp://host" None
           Sample.connected_world "ftp:").
  - reflexivity.
  - intros Hin. apply list_elem_of_In in Hin. simpl in Hin.
    repeat (destruct Hin as [Hin|Hin]; [discriminate Hin|]). exact Hin.
Defined.

(** C7. For a locator whose protocol is [ws:] or [wss:], nothing is
    fetched: after the disconnect of the teardown, the next call that
    leaves the process is the connect operation, started with the
    locator itself as [wsEndpoint] and no [browserURL]; no other call on
    the network or the driver follows. *)
Theorem websocket_locator (E : Env) (url : string) (timeout : option Z)
    (w : World) (protocol : string) :
  URL_protocol E url = Some protocol →
  protocol = "ws:" ∨ protocol = "wss:" →
  ∃ rest,
    events_since w (switchBrowser E url timeout w).2
    = EvDisconnect
      :: EvResponseLine ("Connecting to browser via WebSocket: " +:+ url)
      :: EvConnect (mkConnectArgs None (Some url)
                      (default false (args_experimentalDevtools E)))
      :: rest
    ∧ Forall quiet_event rest.
Proof.
  intros Hurl Hws.
  assert (is_ws protocol = true) as Hp by (by destruct Hws as [-> | ->]).
  set (w1 := mkWorld None (timers w)
               ((trace w ++ [EvDisconnect])
                ++ [EvResponseLine ("Connecting to browser via WebSocket: " +:+ url)])).
  assert (switchBrowser E url timeout w
          = bind (setContext E (switch_options E (Some url) None timeout))
              (λ _, appendResponseLine "âœ“ Successfully connected to browser")
              w1) as ->.
  { unfold switchBrowser, disconnectBrowser, appendResponseLine.
    unfold bind at 1 2 3 4. unfold emit, assign_context, ret. simpl.
    rewrite Hurl. simpl. by rewrite Hp. }
  destruct (connect_and_report_events E (switch_options E (Some url) None timeout)
              "âœ“ Successfully connected to browser" w1) as (evs & Htrace & Hquiet).
  exists evs. split; [|done]. apply events_since_app. rewrite Htrace.
  subst w1. simpl. by rewrite <- !app_assoc.
Qed.

Lemma websocket_locator_witness :
  ∃ rest,
    events_since Sample.connected_world
      (switchBrowser Sample.env Sample.live_endpoint None
         Sample.connected_world).2
    = EvDisconnect
      :: EvResponseLine
           ("Connecting to browser via WebSocket: " +:+ Sample.live_endpoint)
      :: EvConnect (mkConnectArgs None (Some Sample.live_endpoint) false)
      :: rest
    ∧ Forall quiet_event rest.
Proof.
  apply (websocket_locator Sample.env Sample.live_endpoint None
           Sample.connected_world "ws:").
  - reflexivity.
  - left. reflexivity.
Defined.

Lemma fetch_result_cases (r : FetchResult) :
  (∃ statusText webSocketDebuggerUrl,
     r = FetchResponse true statusText (JsonData webSocketDebuggerUrl))
  ∨ ∃ cause, resolution_failure r cause.
Proof.
  destruct r as [reason|[] statusText [reason| |ws]]; eauto using resolution_failure.
Qed.

Lemma http_not_ws (protocol : string) :
  protocol = "http:" ∨ protocol = "https:" →
  is_ws protocol = false ∧ is_http protocol = true.
Proof. by intros [-> | ->]. Qed.

(** The switch when the HTTP path of the resolution fails. *)
Lemma switchBrowser_resolution_failure (E : Env) (url : string)
    (timeout : option Z) (w : World) (protocol cause : string) :
  URL_protocol E url = Some protocol →
  protocol = "http:" ∨ protocol = "https:" →
  resolution_failure (fetch E (url +:+ "/json/version")) cause →
  switchBrowser E url timeout w
  = (Threw (ErrorObj (ResolutionFailed url cause)),
     mkWorld None (timers w)
       (trace w ++
        [EvDisconnect;
         EvResponseLine
           ("Fetching WebSocket endpoint from browser at " +:+ url +:+ "...");
         EvFetch (url +:+ "/json/version")])).
Proof.
  intros Hurl [Hws Hhttp]%http_not_ws Hfail.
  unfold switchBrowser, disconnectBrowser, convertHttpToBrowserUrl,
    appendResponseLine.
  run_async. rewrite Hurl. simpl. rewrite Hws, Hhttp.
  inversion Hfail; simpl; by rewrite <- !app_assoc.
Qed.

(** The switch when the HTTP path of the resolution succeeds. *)
Lemma switchBrowser_resolution_success (E : Env) (url : string)
    (timeout : option Z) (w : World) (protocol statusText : string)
    (webSocketDebuggerUrl : option string) :
  URL_protocol E url = Some protocol →
  protocol = "http:" ∨ protocol = "https:" →
  fetch E (url +:+ "/json/version")
  = FetchResponse true statusText (JsonData webSocketDebuggerUrl) →
  ∃ rest,
    events_since w (switchBrowser E url timeout w).2
    = EvDisconnect
      :: EvResponseLine
           ("Fetching WebSocket endpoint from browser at " +:+ url +:+ "...")
      :: EvFetch (url +:+ "/json/version")
      :: EvResponseLine
           ("Resolved WebSocket endpoint: " +:+ template webSocketDebuggerUrl)
      :: EvConnect (mkConnectArgs (Some url) webSocketDebuggerUrl
                      (default false (args_experimentalDevtools E)))
      :: rest
    ∧ Forall quiet_event rest.
Proof.
  intros Hurl [Hws Hhttp]%http_not_ws Hfetch.
  set (w1 := mkWorld None (timers w)
       (trace w ++
        [EvDisconnect;
         EvResponseLine
           ("Fetching WebSocket endpoint from browser at " +:+ url +:+ "...");
         EvFetch (url +:+ "/json/version");
         EvResponseLine
           ("Resolved WebSocket endpoint: " +:+ template webSocketDebuggerUrl)])).
  assert (switchBrowser E url timeout w
          = bind (setContext E
                    (switch_options E webSocketDebuggerUrl (Some url) timeout))
              (λ _, appendResponseLine "âœ“ Successfully connected to browser")
              w1) as ->.
  { unfold switchBrowser, disconnectBrowser, convertHttpToBrowserUrl,
      appendResponseLine.
    run_async. rewrite Hurl. simpl. rewrite Hws, Hhttp, Hfetch. simpl.
    subst w1. by rewrite <- !app_assoc. }
  destruct (connect_and_report_events E
              (switch_options E webSocketDebuggerUrl (Some url) timeout)
              "âœ“ Successfully connected to browser" w1)
    as (evs & Htrace & Hquiet).
  exists evs. split; [|done]. apply events_since_app. rewrite Htrace.
  subst w1. simpl. by rewrite <- !app_assoc.
Qed.

(** C8. For a locator whose protocol is [http:] or [https:], the
    resolution makes one request, to [<url>/json/version].  When the
    response is [ok] and its body parses, the [webSocketDebuggerUrl] of
    the body is the [wsEndpoint] and the locator itself the [browserURL]
    of the connect operation that follows.  When the request or the
    parse fails, [switchBrowser] throws the resolution error, whose
    message carries the locator, the message of the cause and the advice
    to make sure the browser is running and the URL is correct; no
    connect operation is started. *)
Theorem http_locator (E : Env) (url : string) (timeout : option Z)
    (w : World) (protocol : string) :
  URL_protocol E url = Some protocol →
  protocol = "http:" ∨ protocol = "https:" →
  (∃ rest,
     events_since w (switchBrowser E url timeout w).2
     = EvDisconnect
       :: EvResponseLine
            ("Fetching WebSocket endpoint from browser at " +:+ url +:+ "...")
       :: EvFetch (url +:+ "/json/version") :: rest
     ∧ Forall (λ ev, ∀ u, ev ≠ EvFetch u) rest)
  ∧ (∀ statusText webSocketDebuggerUrl,
       fetch E (url +:+ "/json/version")
       = FetchResponse true statusText (JsonData webSocketDebuggerUrl) →
       ∃ rest,
         events_since w (switchBrowser E url timeout w).2
         = EvDisconnect
           :: EvResponseLine
                ("Fetching WebSocket endpoint from browser at " +:+ url +:+ "...")
           :: EvFetch (url +:+ "/json/version")
           :: EvResponseLine
                ("Resolved WebSocket endpoint: " +:+ template webSocketDebuggerUrl)
           :: EvConnect (mkConnectArgs (Some url) webSocketDebuggerUrl
                           (default false (args_experimentalDevtools E)))
           :: rest
         ∧ Forall quiet_event rest)
  ∧ (∀ cause,
       resolution_failure (fetch E (url +:+ "/json/version")) cause →
       (switchBrowser E url timeout w).1
       = Threw (ErrorObj (ResolutionFailed url cause))
       ∧ events_since w (switchBrowser E url timeout w).2
         = [EvDisconnect;
            EvResponseLine
              ("Fetching WebSocket endpoint from browser at " +:+ url +:+ "...");
            EvFetch (url +:+ "/json/version")]
       ∧ occurs_in url (ResolutionFailed url cause)
       ∧ occurs_in cause (ResolutionFailed url cause)
       ∧ occurs_in "Make sure the browser is running and the URL is correct"
           (ResolutionFailed url cause)).
Proof.
  intros Hurl Hhttp. split; [|split].
  - destruct (fetch_result_cases (fetch E (url +:+ "/json/version")))
      as [(statusText & ws & Hfetch)|[cause Hfail]].
    + destruct (switchBrowser_resolution_success E url timeout w _ _ _
                  Hurl Hhttp Hfetch) as (rest & -> & Hquiet).
      eexists. split; [reflexivity|].
      repeat (constructor; [done|]).
      apply (Forall_impl _ _ _ Hquiet). intros ev Hev u ->. exact Hev.
    + rewrite (switchBrowser_resolution_failure E url timeout w _ _
                 Hurl Hhttp Hfail).
      exists []. split; [by since_trace|constructor].
  - intros statusText ws Hfetch.
    exact (switchBrowser_resolution_success E url timeout w _ _ _
             Hurl Hhttp Hfetch).
  - intros cause Hfail.
    rewrite (switchBrowser_resolution_failure E url timeout w _ _
               Hurl Hhttp Hfail).
    split; [done|split; [by since_trace|split; [|split]]].
    + by apply (occurs_in_intro "Could not connect to browser at " _
                  (": " +:+ cause +:+
                   ". Make sure the browser is running and the URL is correct.")).
    + apply (occurs_in_intro ("Could not connect to browser at " +:+ url +:+ ": ")
               _ ". Make sure the browser is running and the URL is correct.").
      unfold ResolutionFailed. by rewrite !append_assoc.
    + apply (occurs_in_intro
               ("Could not connect to browser at " +:+ url +:+ ": " +:+ cause +:+ ". ")
               _ ".").
      unfold ResolutionFailed. by rewrite !append_assoc.
Qed.

Lemma http_locator_witness :
  (∃ rest,
     events_since Sample.connected_world
       (switchBrowser Sample.env "http://127.0.0.1:9222" None
          Sample.connected_world).2
     = EvDisconnect
       :: EvResponseLine
            "Fetching WebSocket endpoint from browser at http://127.0.0.1:9222..."
       :: EvFetch "http://127.0.0.1:9222/json/version"
       :: EvResponseLine
            "Resolved WebSocket endpoint: ws://127.0.0.1:9222/devtools/browser/abc"
       :: EvConnect (mkConnectArgs (Some "http://127.0.0.1:9222")
                       (Some Sample.live_endpoint) false)
       :: rest
     ∧ Forall quiet_event rest)
  ∧ (switchBrowser Sample.env "http://127.0.0.1:9333" None
       Sample.connected_world).1
    = Threw (ErrorObj
        "Could not connect to browser at http://127.0.0.1:9333: Failed to fetch browser info: Not Found. Make sure the browser is running and the URL is correct.").
Proof.
  split.
  - destruct (http_locator Sample.env "http://127.0.0.1:9222" None
                Sample.connected_world "http:" eq_refl (or_introl eq_refl))
      as (_ & Hok & _).
    apply (Hok "OK" (Some Sample.live_endpoint)). reflexivity.
  - destruct (http_locator Sample.env "http://127.0.0.1:9333" None
                Sample.connected_world "http:" eq_refl (or_introl eq_refl))
      as (_ & _ & Hfail).
    apply (Hfail "Failed to fetch browser info: Not Found").
    apply (response_not_ok "Not Found" JsonNull).
Defined.

(** ** inspect_element: the target of the inspection *)

(** C9 as stated fails: a request that supplies the empty string as its
    selector, and no coordinates, is refused like one with no
    selector. *)
Lemma empty_selector_rejected :
  Layout.inspectElement Sample.page
    (Layout.mkInspectParams (Some "") None None true) Sample.start
  = (Threw (ErrorObj Layout.missing_target), Sample.start).
Proof. reflexivity. Qed.

(** C9, as the code has it.  When the selector is absent or empty and
    [x] and [y] are not both given, the handler throws the
    selector-or-coordinates error and nothing is evaluated in the page;
    with a selector that is not empty, or with both coordinates, the
    handler evaluates in the page. *)
Theorem inspect_target_check (P : Layout.Page) (params : Layout.InspectParams)
    (w : World) :
  (Layout.truthy_string (Layout.selector params) = false
   ∧ (Layout.x params = None ∨ Layout.y params = None) →
   Layout.inspectElement P params w
   = (Threw (ErrorObj Layout.missing_target), w))
  ∧ (Layout.truthy_string (Layout.selector params) = true
     ∨ (is_Some (Layout.x params) ∧ is_Some (Layout.y params)) →
     ∃ rest,
       events_since w (Layout.inspectElement P params w).2
       = EvEvaluate "inspect_element" :: rest).
Proof.
  unfold Layout.inspectElement. split.
  - intros [-> Hxy]. simpl.
    destruct Hxy as [-> | ->]; simpl; [done|].
    by rewrite orb_true_r.
  - intros Hgiven.
    assert (negb (Layout.truthy_string (Layout.selector params))
            && (bool_decide (Layout.x params = None)
                || bool_decide (Layout.y params = None)) = false) as ->.
    { destruct Hgiven as [-> | [[px ->] [py ->]]]; [done|].
      apply andb_false_r. }
    unfold appendResponseLine. run_async.
    repeat (step; run_async); eexists; by since_trace.
Qed.

Lemma inspect_target_check_witness :
  Layout.inspectElement Sample.page
    (Layout.mkInspectParams None (Some 0%Q) None true) Sample.start
  = (Threw (ErrorObj Layout.missing_target), Sample.start)
  ∧ ∃ rest,
      events_since Sample.start
        (Layout.inspectElement Sample.page
           (Layout.mkInspectParams (Some "#menu") None None true) Sample.start).2
      = EvEvaluate "inspect_element" :: rest.
Proof.
  split.
  - apply (inspect_target_check Sample.page
             (Layout.mkInspectParams None (Some 0%Q) None true) Sample.start).
    split; [reflexivity | right; reflexivity].
  - apply (inspect_target_check Sample.page
             (Layout.mkInspectParams (Some "#menu") None None true) Sample.start).
    left. reflexivity.
Defined.

(** ** get_dom_tree: the depth of the tree *)

Lemma depth_below_spec (depth : nat) (maxDepth : Q) :
  Layout.depth_below depth maxDepth = true ↔ Layout.below depth maxDepth.
Proof.
  unfold Layout.depth_below, Layout.below.
  rewrite negb_true_iff, <- not_true_iff_false, Qle_bool_iff.
  split; [apply Qnot_le_lt | apply Qlt_not_le].
Qed.

(** Induction on an element, with the property known of its element
    children. *)
Lemma Element_children_ind (P : Layout.Element → Prop) :
  (∀ e, Forall P (Layout.el_children e) → P e) → ∀ e, P e.
Proof.
  intros Hstep. fix IH 1. intros [tagName id className attributes nodes].
  apply Hstep. unfold Layout.el_children. simpl.
  induction nodes as [|[child| |] rest IHrest]; simpl.
  - constructor.
  - constructor; [apply IH | exact IHrest].
  - exact IHrest.
  - exact IHrest.
Qed.

Lemma nodes_with_depth_unfold (depth : nat) (n : Layout.DomNode) :
  Layout.nodes_with_depth depth n
  = (depth, n)
    :: match Layout.children n with
       | Some cs => flat_map (Layout.nodes_with_depth (S depth)) cs
       | None => []
       end.
Proof. by destruct n as [t i c a x [cs|] k]. Qed.

Section SerializeProperties.
Context (args : Layout.DomTreeParams).

(** The two optional fields of a serialized node. *)
Lemma serializeNode_children (node : Layout.Element) (depth : nat) :
  (Layout.children (Layout.serializeNode args node depth),
   Layout.childCount (Layout.serializeNode args node depth))
  = if bool_decide (Layout.el_children node ≠ []) then
      if Layout.depth_below depth (Layout.maxDepth args) then
        (Some (map (λ child, Layout.serializeNode args child (S depth))
                 (Layout.el_children node)), None)
      else (None, Some (length (Layout.el_children node)))
    else (None, None).
Proof.
  destruct node as [tagName id className attributes nodes].
  unfold Layout.el_children. simpl.
  destruct (bool_decide (Layout.elements_of nodes ≠ [])); [|done].
  destruct (Layout.depth_below depth (Layout.maxDepth args)); [|done].
  simpl. do 2 f_equal.
  induction nodes as [|[child| |] rest IHrest]; simpl; [done| |done..].
  by rewrite IHrest.
Qed.

(** A node of the output below the root of the serialization has a
    parent whose depth is below [maxDepth]. *)
Lemma serializeNode_depths (node : Layout.Element) :
  ∀ depth k n,
    (k, n) ∈ Layout.nodes_with_depth depth (Layout.serializeNode args node depth) →
    k = depth
    ∨ ∃ j, k = S j ∧ (depth ≤ j)%nat ∧ Layout.below j (Layout.maxDepth args).
Proof.
  induction node as [node IHchildren] using Element_children_ind.
  intros depth k n. rewrite nodes_with_depth_unfold.
  pose proof (serializeNode_children node depth) as Hfields.
  destruct (bool_decide (Layout.el_children node ≠ []));
    [destruct (Layout.depth_below depth (Layout.maxDepth args)) eqn:Hbelow|];
    injection Hfields as -> _; rewrite elem_of_cons;
    (intros [[= -> _]|Hin]; [by left|]);
    [|by apply elem_of_nil in Hin..].
  apply depth_below_spec in Hbelow. right.
  apply list_elem_of_In, in_flat_map in Hin as (c & Hc & Hin).
  apply in_map_iff in Hc as (child & <- & Hchild).
  rewrite Forall_forall in IHchildren.
  apply list_elem_of_In in Hchild, Hin.
  destruct (IHchildren child Hchild (S depth) k n Hin)
    as [-> | (j & -> & Hle & Hj)].
  - by exists depth.
  - exists j. split; [done|]. split; [lia|done].
Qed.

End SerializeProperties.

(** The response of [get_dom_tree] for a root that is found: the JSON
    text of the serialization of the root at depth 0. *)
Lemma getDomTree_response (args : Layout.DomTreeParams) (P : Layout.Page)
    (JSON_stringify : Layout.DomNode → string) (root : Layout.Element)
    (w : World) :
  Layout.dom_tree_in_page args P
  = inr (inr (Layout.serializeNode args root 0)) →
  events_since w (Layout.getDomTree args P JSON_stringify w).2
  = [EvEvaluate "get_dom_tree";
     EvResponseLine (JSON_stringify (Layout.serializeNode args root 0))].
Proof.
  intros Htree. unfold Layout.getDomTree, appendResponseLine. rewrite Htree.
  run_async. by since_trace.
Qed.

(** C10 as stated fails: with a negative [maxDepth] the root, at depth
    0, is in the output; with [maxDepth] 3/2 the nodes at depth 2 are. *)
Lemma node_deeper_than_maxDepth :
  (Layout.maxDepth (Sample.tree_args (-1)) < inject_Z 0)%Q
  ∧ (0%nat, Layout.mkDomNode "body" None None None None None (Some 2%nat))
    ∈ Layout.nodes_with_depth 0
        (Layout.serializeNode (Sample.tree_args (-1)) Sample.document_body 0)
  ∧ (Layout.maxDepth (Sample.tree_args (3 # 2)) < inject_Z 2)%Q
  ∧ (2%nat, Layout.mkDomNode "li" None (Some "item") None (Some "two") None
              (Some 1%nat))
    ∈ Layout.nodes_with_depth 0
        (Layout.serializeNode (Sample.tree_args (3 # 2)) Sample.document_body 0).
Proof.
  split; [reflexivity|split; [|split; [reflexivity|]]];
    rewrite list_elem_of_In; vm_compute; auto 10.
Qed.

(** C10, as the code has it.  A serialized node whose element has
    element children carries their serializations, one level deeper,
    when its depth is below [maxDepth], and only their number when it is
    not; a node without element children carries neither.  So every
    node of the output other than the root of the serialization has a
    parent whose depth is below [maxDepth], and when [maxDepth] is an
    integer that is not negative, no node of the output is deeper than
    [maxDepth].  The root is in the output whatever [maxDepth] is. *)
Theorem dom_tree_depth_limit (args : Layout.DomTreeParams)
    (node : Layout.Element) (depth : nat) :
  (Layout.el_children node ≠ [] →
   Layout.below depth (Layout.maxDepth args) →
   Layout.children (Layout.serializeNode args node depth)
   = Some (map (λ child, Layout.serializeNode args child (S depth))
             (Layout.el_children node))
   ∧ Layout.childCount (Layout.serializeNode args node depth) = None)
  ∧ (Layout.el_children node ≠ [] →
     ¬ Layout.below depth (Layout.maxDepth args) →
     Layout.children (Layout.serializeNode args node depth) = None
     ∧ Layout.childCount (Layout.serializeNode args node depth)
       = Some (length (Layout.el_children node)))
  ∧ (Layout.el_children node = [] →
     Layout.children (Layout.serializeNode args node depth) = None
     ∧ Layout.childCount (Layout.serializeNode args node depth) = None)
  ∧ (∀ k n,
       (k, n) ∈ Layout.nodes_with_depth depth
                  (Layout.serializeNode args node depth) →
       k = depth
       ∨ ∃ j, k = S j ∧ (depth ≤ j)%nat
              ∧ Layout.below j (Layout.maxDepth args))
  ∧ (∀ z k n,
       (Layout.maxDepth args == inject_Z z)%Q → (0 ≤ z)%Z →
       (k, n) ∈ Layout.nodes_with_depth 0 (Layout.serializeNode args node 0) →
       (Z.of_nat k ≤ z)%Z).
Proof.
  pose proof (serializeNode_children args node depth) as Hfields.
  pose proof (depth_below_spec depth (Layout.maxDepth args)) as Hspec.
  split; [|split; [|split; [|split]]].
  - intros Hchildren Hbelow.
    rewrite bool_decide_eq_true_2 in Hfields by done.
    apply Hspec in Hbelow. rewrite Hbelow in Hfields.
    by injection Hfields as -> ->.
  - intros Hchildren Hbelow.
    rewrite bool_decide_eq_true_2 in Hfields by done.
    destruct (Layout.depth_below depth (Layout.maxDepth args));
      [by destruct Hbelow; apply Hspec|].
    by injection Hfields as -> ->.
  - intros Hchildren.
    rewrite bool_decide_eq_false_2 in Hfields by (by intros []).
    by injection Hfields as -> ->.
  - apply serializeNode_depths.
  - intros z k n Hmax Hz Hin.
    destruct (serializeNode_depths args node 0 k n Hin)
      as [-> | (j & -> & _ & Hj)]; [done|].
    unfold Layout.below in Hj. rewrite Hmax in Hj.
    rewrite <- Zlt_Qlt in Hj. lia.
Qed.

Lemma dom_tree_depth_limit_witness :
  (Layout.children (Layout.serializeNode (Sample.tree_args 2) Sample.items 1)
   = Some [Layout.serializeNode (Sample.tree_args 2) Sample.item1 2;
           Layout.serializeNode (Sample.tree_args 2) Sample.item2 2]
   ∧ Layout.childCount (Layout.serializeNode (Sample.tree_args 2) Sample.items 1)
     = None)
  ∧ (Layout.children (Layout.serializeNode (Sample.tree_args 1) Sample.items 1)
     = None
     ∧ Layout.childCount (Layout.serializeNode (Sample.tree_args 1) Sample.items 1)
       = Some 2%nat)
  ∧ (Layout.children (Layout.serializeNode (Sample.tree_args 2) Sample.link 3)
     = None
     ∧ Layout.childCount (Layout.serializeNode (Sample.tree_args 2) Sample.link 3)
       = None)
  ∧ (2%nat = 0%nat
     ∨ ∃ j, 2%nat = S j ∧ (0 ≤ j)%nat ∧ Layout.below j (3 # 2))
  ∧ (2 ≤ 2)%Z.
Proof.
  destruct (dom_tree_depth_limit (Sample.tree_args 2) Sample.items 1)
    as (Hdeeper & _).
  destruct (dom_tree_depth_limit (Sample.tree_args 1) Sample.items 1)
    as (_ & Hcount & _).
  destruct (dom_tree_depth_limit (Sample.tree_args 2) Sample.link 3)
    as (_ & _ & Hleaf & _).
  destruct (dom_tree_depth_limit (Sample.tree_args (3 # 2))
              Sample.document_body 0) as (_ & _ & _ & Hparent & _).
  destruct (dom_tree_depth_limit (Sample.tree_args 2) Sample.document_body 0)
    as (_ & _ & _ & _ & Hdeepest).
  split; [|split; [|split; [|split]]].
  - apply Hdeeper; [discriminate | reflexivity].
  - apply Hcount; [discriminate|].
    unfold Layout.below. simpl. intros Hlt. by apply Qlt_irrefl in Hlt.
  - apply Hleaf. reflexivity.
  - apply (Hparent 2%nat
             (Layout.mkDomNode "li" None (Some "item") None (Some "two") None
                (Some 1%nat))).
    rewrite list_elem_of_In. vm_compute. auto 10.
  - apply (Hdeepest 2%Z 2%nat
             (Layout.mkDomNode "li" None (Some "item") None (Some "two") None
                (Some 1%nat))).
    + reflexivity.
    + lia.
    + rewrite list_elem_of_In. vm_compute. auto 10.
Defined.

(** * Further properties of the connection context *)

(** ** Timers and termination of [setContext] *)

(** X1. Whatever the outcome, [setContext] leaves the timers as it found
    them: the timer it arms is cleared when the connect operation wins
    and has fired when it loses. *)
Theorem setContext_timers (E : Env) (options : SetContextOptions) (w : World) :
  timers (setContext E options w).2 = timers w.
Proof.
  assert (Hfresh : timers w !! fresh (dom (timers w)) = None)
    by (apply not_elem_of_dom, is_fresh).
  unfold setContext, race, await_connect, from. run_async.
  repeat (step; run_async);
    rewrite ?delete_insert_id, ?(delete_id (timers w)) by done; done.
Qed.

(** When [setContext] stays pending. *)
Lemma setContext_hangs (E : Env) (options : SetContextOptions) (w : World) :
  (setContext E options w).1 = Pending
  ↔ truthy_number (timeout options) = false
    ∧ ensureBrowserConnected E (connect_args options) = NeverSettles.
Proof.
  unfold setContext, race, await_connect, from. run_async.
  repeat (step; run_async); split; (intros [? ?] || intros ?); done.
Qed.

(** X2. [setContext] waits for ever on the connect operation exactly
    when no timer is armed (the timeout is absent or 0) and the connect
    operation never settles; with any other timeout the race is decided
    and, [McpContext.from] being taken to settle, [setContext] returns
    or throws. *)
Theorem setContext_pending (E : Env) (options : SetContextOptions) (w : World) :
  (setContext E options w).1 = Pending
  ↔ truthy_number (timeout options) = false
    ∧ ensureBrowserConnected E (connect_args options) = NeverSettles.
Proof. apply setContext_hangs. Qed.

Lemma setContext_pending_witness :
  (setContext Sample.env (Sample.no_address (Some 0)) Sample.start).1 = Pending
  ∧ (setContext Sample.env (Sample.no_address (Some 50)) Sample.start).1 ≠ Pending.
Proof.
  split.
  - apply (setContext_pending Sample.env (Sample.no_address (Some 0))
             Sample.start).
    split; reflexivity.
  - intros Hpending.
    apply (setContext_pending Sample.env (Sample.no_address (Some 50))
             Sample.start) in Hpending.
    destruct Hpending as [Htimer _]. discriminate Htimer.
Defined.

(** Where a returned context comes from. *)
Lemma setContext_built (E : Env) (options : SetContextOptions) (w : World)
    (c : McpContext) :
  (setContext E options w).1 = Returned c →
  ∃ b evs,
    connect_resolves E options (Some b)
    ∧ McpContext_from E b (from_options options) = inr c
    ∧ context (setContext E options w).2 = Some c
    ∧ trace (setContext E options w).2 = trace w ++ evs
    ∧ EvFrom b (from_options options) ∈ evs.
Proof.
  unfold connect_resolves, setContext, race, await_connect, from. run_async.
  repeat (step; run_async); intros [= <-];
    (eexists; eexists; split;
     [eexists; split; [reflexivity|]
     |split; [done|split; [done|split; [by rewrite <- ?app_assoc|]]]]);
    [by intros _| |done|]; in_trace.
Qed.

(** X3. A context that [setContext] returns was built by
    [McpContext.from] from the handle the connect operation resolved
    with, before any armed timer fired, and is the content of the
    registry afterwards. *)
Theorem setContext_returned (E : Env) (options : SetContextOptions) (w : World)
    (c : McpContext) :
  (setContext E options w).1 = Returned c →
  ∃ b,
    connect_resolves E options (Some b)
    ∧ McpContext_from E b (from_options options) = inr c
    ∧ getContext (setContext E options w).2 = Some c
    ∧ EvFrom b (from_options options)
      ∈ events_since w (setContext E options w).2.
Proof.
  intros Hreturned.
  destruct (setContext_built E options w c Hreturned)
    as (b & evs & Hresolves & Hfrom & Hcontext & Htrace & Hin).
  exists b. rewrite (events_since_app _ _ _ Htrace). done.
Qed.

Lemma setContext_returned_witness :
  ∃ b,
    connect_resolves Sample.env
      (Sample.ws_options Sample.live_endpoint (Some 50)) (Some b)
    ∧ Sample.build b (mkFromOptions false false) = inr (McpContextRef 1)
    ∧ getContext
        (setContext Sample.env (Sample.ws_options Sample.live_endpoint (Some 50))
           Sample.connected_world).2 = Some (McpContextRef 1)
    ∧ EvFrom b (mkFromOptions false false)
      ∈ events_since Sample.connected_world
          (setContext Sample.env
             (Sample.ws_options Sample.live_endpoint (Some 50))
             Sample.connected_world).2.
Proof.
  apply (setContext_returned Sample.env
           (Sample.ws_options Sample.live_endpoint (Some 50))
           Sample.connected_world (McpContextRef 1)).
  reflexivity.
Defined.

(** X4. When the armed timer fires first, the connect operation is
    abandoned: whatever it settles with later, no context is built, the
    registry and the timers are what they were, and the only events are
    the connect call, the arming, the firing and the clearing of the
    timer. *)
Theorem setContext_timed_out (E : Env) (options : SetContextOptions) (w : World)
    (ms : Z) :
  timer_fires_first E options ms →
  setContext E options w
  = (Threw (ErrorObj (ConnectionTimeout ms)),
     mkWorld (context w) (timers w)
       (trace w ++
        [EvConnect (connect_args options);
         EvSetTimeout (fresh (dom (timers w))) ms;
         EvTimerFired (fresh (dom (timers w)));
         EvClearTimeout (fresh (dom (timers w)))])).
Proof.
  intros (Hms & Htimer & Hop).
  assert (Hfresh : timers w !! fresh (dom (timers w)) = None)
    by (apply not_elem_of_dom, is_fresh).
  unfold setContext, race. rewrite Htimer, Hms. run_async.
  destruct (ensureBrowserConnected E (connect_args options)) as [at_ms s|];
    [destruct (decide _); [done|]|]; simpl;
    rewrite delete_insert_id, (delete_id (timers w)) by done;
    by rewrite <- !app_assoc.
Qed.

Lemma setContext_timed_out_witness :
  setContext Sample.env (Sample.ws_options Sample.live_endpoint (Some 10))
    Sample.connected_world
  = (Threw (ErrorObj (ConnectionTimeout 10)),
     mkWorld (Some Sample.old_context) ∅
       [EvConnect (mkConnectArgs None (Some Sample.live_endpoint) false);
        EvSetTimeout 0 10; EvTimerFired 0; EvClearTimeout 0]).
Proof.
  apply (setContext_timed_out Sample.env
           (Sample.ws_options Sample.live_endpoint (Some 10))
           Sample.connected_world 10).
  split; [reflexivity | split; [reflexivity | vm_compute; lia]].
Defined.

(** ** The sequence of [switchBrowser] *)

Lemma internal_event_not_line (line : string) (evs : list Event) :
  Forall internal_event evs → Forall (λ ev, ev ≠ EvResponseLine line) evs.
Proof. intros Hevs. apply (Forall_impl _ _ _ Hevs). by intros [] Hev. Qed.

(** The events of a switch: the disconnect first; the line that reports
    the connection last when the switch returns, and not at all when it
    does not. *)
Lemma switchBrowser_events (E : Env) (url : string) (timeout : option Z)
    (w : World) :
  ∃ evs,
    trace (switchBrowser E url timeout w).2 = trace w ++ EvDisconnect :: evs
    ∧ match (switchBrowser E url timeout w).1 with
      | Returned _ =>
          ∃ before, evs = before ++ [EvResponseLine connected_line]
                    ∧ Forall (λ ev, ev ≠ EvResponseLine connected_line) before
      | _ => Forall (λ ev, ev ≠ EvResponseLine connected_line) evs
      end.
Proof.
  unfold switchBrowser, disconnectBrowser, convertHttpToBrowserUrl,
    appendResponseLine.
  run_async.
  repeat
    (match goal with
     | |- context [setContext E ?o ?w1] =>
         let evs := fresh "evs" in
         let Htrace := fresh "Htrace" in
         let Hevs := fresh "Hevs" in
         destruct (setContext_events E o w1) as (evs & Htrace & Hevs);
         apply (internal_event_not_line connected_line) in Hevs;
         destruct (setContext E o w1) as [[c|e|] w2]; simpl in *;
         rewrite Htrace
     | _ => step; run_async
     end);
    rewrite <- ?app_assoc; simpl; eexists; (split; [reflexivity|]);
    try (eexists; split;
         [rewrite ?app_comm_cons; reflexivity|]);
    repeat (apply Forall_cons; split; [discriminate|]);
    try done; by apply Forall_nil.
Qed.

(** X5. [switchBrowser] disconnects before it looks at the locator: the
    disconnect is its first event for every locator, and for a locator
    that the URL constructor rejects the switch throws with the world as
    the disconnect left it. *)
Theorem switchBrowser_disconnects_first (E : Env) (url : string)
    (timeout : option Z) (w : World) :
  (∃ rest,
     events_since w (switchBrowser E url timeout w).2 = EvDisconnect :: rest)
  ∧ (URL_protocol E url = None →
     ∃ e, switchBrowser E url timeout w = (Threw e, (disconnectBrowser w).2)).
Proof.
  split.
  - destruct (switchBrowser_events E url timeout w) as (evs & Htrace & _).
    exists evs. by apply events_since_app.
  - intros Hurl. eexists.
    unfold switchBrowser, disconnectBrowser. run_async. by rewrite Hurl.
Qed.

Lemma switchBrowser_disconnects_first_witness :
  ∃ e,
    switchBrowser Sample.env "localhost" None Sample.connected_world
    = (Threw e, mkWorld None ∅ [EvDisconnect]).
Proof.
  destruct (switchBrowser_disconnects_first Sample.env "localhost" None
              Sample.connected_world) as [_ Hinvalid].
  apply Hinvalid. reflexivity.
Defined.

(** X6. The handler of [switch_browser] reports the connection exactly
    when it returns: the line is then the last event and the registry
    holds a context; when the switch throws or stays pending, the line
    is not in the response. *)
Theorem switchBrowser_reports_success (E : Env) (url : string)
    (timeout : option Z) (w : World) :
  (EvResponseLine connected_line
   ∈ events_since w (switchBrowser E url timeout w).2
   ↔ (switchBrowser E url timeout w).1 = Returned ())
  ∧ ((switchBrowser E url timeout w).1 = Returned () →
     last (trace (switchBrowser E url timeout w).2)
     = Some (EvResponseLine connected_line)
     ∧ is_Some (getContext (switchBrowser E url timeout w).2)).
Proof.
  destruct (switchBrowser_events E url timeout w) as (evs & Htrace & Hevs).
  rewrite (events_since_app _ _ _ Htrace).
  split; [split|].
  - intros Hin.
    destruct (switchBrowser E url timeout w).1 as [[]|e|]; [done|..];
      apply elem_of_cons in Hin as [[=]|Hin];
      rewrite Forall_forall in Hevs; by destruct (Hevs _ Hin).
  - intros Hreturned. rewrite Hreturned in Hevs.
    destruct Hevs as (before & -> & _).
    rewrite elem_of_cons, elem_of_app, list_elem_of_singleton. tauto.
  - intros Hreturned. rewrite Hreturned in Hevs.
    destruct Hevs as (before & -> & _). split.
    + rewrite Htrace, app_comm_cons, app_assoc. apply last_snoc.
    + destruct (getContext (switchBrowser E url timeout w).2) eqn:Hcontext;
        [done|].
      revert Hreturned Hcontext. unfold getContext.
      unfold switchBrowser, disconnectBrowser, convertHttpToBrowserUrl,
        appendResponseLine.
      run_async.
      repeat
        (match goal with
         | |- context [setContext E ?o ?w1] =>
             let H := fresh "H" in
             pose proof (setContext_registry E o w1) as H;
             destruct (setContext E o w1) as [[c|e|] w2]; simpl in *
         | _ => step; run_async
         end); congruence.
Qed.

Lemma switchBrowser_reports_success_witness :
  last (trace (switchBrowser Sample.env Sample.live_endpoint None
                 Sample.start).2)
  = Some (EvResponseLine connected_line)
  ∧ is_Some (getContext (switchBrowser Sample.env Sample.live_endpoint None
                           Sample.start).2).
Proof.
  apply (switchBrowser_reports_success Sample.env Sample.live_endpoint None
           Sample.start).
  reflexivity.
Defined.

(** A switch to a WebSocket locator, from the connection attempt on. *)
Lemma switchBrowser_websocket_tail (E : Env) (url : string)
    (timeout : option Z) (w : World) (protocol : string) :
  URL_protocol E url = Some protocol →
  is_ws protocol = true →
  switchBrowser E url timeout w
  = bind (setContext E (switch_options E (Some url) None timeout))
      (λ _, appendResponseLine connected_line)
      (mkWorld None (timers w)
         (trace w ++
          [EvDisconnect;
           EvResponseLine ("Connecting to browser via WebSocket: " +:+ url)])).
Proof.
  intros Hurl Hws.
  unfold switchBrowser, disconnectBrowser, appendResponseLine.
  run_async. rewrite Hurl. simpl. rewrite Hws. simpl.
  by rewrite <- !app_assoc.
Qed.

(** X8. A switch to a [ws:] or [wss:] locator waits for ever on the
    connect operation only when the caller passes the timeout 0 and the
    driver's connect operation never settles: left to its default of
    10000 ms, or given any other timeout, the switch returns or throws
    (the disconnect and [McpContext.from] being taken to settle). *)
Theorem switchBrowser_websocket_pending (E : Env) (url : string)
    (timeout : option Z) (w : World) (protocol : string) :
  URL_protocol E url = Some protocol →
  protocol = "ws:" ∨ protocol = "wss:" →
  (switchBrowser E url timeout w).1 = Pending
  ↔ timeout = Some 0
    ∧ ensureBrowserConnected E
        (mkConnectArgs None (Some url)
           (default false (args_experimentalDevtools E))) = NeverSettles.
Proof.
  intros Hurl Hws.
  assert (is_ws protocol = true) as Hp by (by destruct Hws as [-> | ->]).
  rewrite (switchBrowser_websocket_tail E url timeout w protocol Hurl Hp).
  set (w1 := mkWorld _ _ _).
  pose proof (setContext_hangs E (switch_options E (Some url) None timeout) w1)
    as Hhangs.
  unfold bind, appendResponseLine, emit.
  destruct (setContext E (switch_options E (Some url) None timeout) w1)
    as [[c|e|] w2]; simpl in *.
  - split; [done|]. intros [-> Hnever].
    discriminate (proj2 Hhangs (conj eq_refl Hnever)).
  - split; [done|]. intros [-> Hnever].
    discriminate (proj2 Hhangs (conj eq_refl Hnever)).
  - destruct (proj1 Hhangs eq_refl) as [Htimer Hnever].
    split; [intros _|done]. split; [|done].
    destruct timeout as [t|]; [|done]. simpl in Htimer.
    apply negb_false_iff, Z.eqb_eq in Htimer. by subst.
Qed.

Lemma switchBrowser_websocket_pending_witness :
  (switchBrowser Sample.env "ws://127.0.0.1:9/x" (Some 0) Sample.start).1
  = Pending
  ∧ (switchBrowser Sample.env "ws://127.0.0.1:9/x" None Sample.start).1
    ≠ Pending.
Proof.
  split.
  - apply (switchBrowser_websocket_pending Sample.env "ws://127.0.0.1:9/x"
             (Some 0) Sample.start "ws:" eq_refl (or_introl eq_refl)).
    split; reflexivity.
  - intros Hpending.
    apply (switchBrowser_websocket_pending Sample.env "ws://127.0.0.1:9/x"
             None Sample.start "ws:" eq_refl (or_introl eq_refl)) in Hpending.
    destruct Hpending as [Hzero _]. discriminate Hzero.
Defined.

(** X9. A version document without a [webSocketDebuggerUrl] is no
    failure of the resolution: the handler reports the endpoint
    ["undefined"] and starts the connect operation with the locator as
    [browserURL] and no [wsEndpoint]. *)
Theorem http_locator_without_endpoint (E : Env) (url : string)
    (timeout : option Z) (w : World) (protocol statusText : string) :
  URL_protocol E url = Some protocol →
  protocol = "http:" ∨ protocol = "https:" →
  fetch E (url +:+ "/json/version")
  = FetchResponse true statusText (JsonData None) →
  ∃ rest,
    events_since w (switchBrowser E url timeout w).2
    = EvDisconnect
      :: EvResponseLine
           ("Fetching WebSocket endpoint from browser at " +:+ url +:+ "...")
      :: EvFetch (url +:+ "/json/version")
      :: EvResponseLine "Resolved WebSocket endpoint: undefined"
      :: EvConnect (mkConnectArgs (Some url) None
                      (default false (args_experimentalDevtools E)))
      :: rest
    ∧ Forall quiet_event rest.
Proof.
  intros Hurl Hhttp Hfetch.
  exact (switchBrowser_resolution_success E url timeout w _ _ None
           Hurl Hhttp Hfetch).
Qed.

Lemma http_locator_without_endpoint_witness :
  ∃ rest,
    events_since Sample.start
      (switchBrowser Fixtures.env "http://127.0.0.1:9444" None Sample.start).2
    = EvDisconnect
      :: EvResponseLine
           "Fetching WebSocket endpoint from browser at http://127.0.0.1:9444..."
      :: EvFetch "http://127.0.0.1:9444/json/version"
      :: EvResponseLine "Resolved WebSocket endpoint: undefined"
      :: EvConnect (mkConnectArgs (Some "http://127.0.0.1:9444") None true)
      :: rest
    ∧ Forall quiet_event rest.
Proof.
  apply (http_locator_without_endpoint Fixtures.env "http://127.0.0.1:9444"
           None Sample.start "http:" "OK").
  - reflexivity.
  - left. reflexivity.
  - reflexivity.
Defined.

(** X10. [convertHttpToBrowserUrl] makes one request and touches
    nothing else.  It returns the [webSocketDebuggerUrl] of an [ok]
    response whose body parses; in every other case, also when what was
    thrown is no [Error], it throws an [Error] with the resolution
    message around the message of the cause. *)
Theorem convertHttpToBrowserUrl_outcomes (E : Env) (url : string) (w : World) :
  (convertHttpToBrowserUrl E url w).2
  = mkWorld (context w) (timers w) (trace w ++ [EvFetch (url +:+ "/json/version")])
  ∧ ((∃ statusText webSocketDebuggerUrl,
        fetch E (url +:+ "/json/version")
        = FetchResponse true statusText (JsonData webSocketDebuggerUrl)
        ∧ (convertHttpToBrowserUrl E url w).1 = Returned webSocketDebuggerUrl)
     ∨ (∃ cause,
          resolution_failure (fetch E (url +:+ "/json/version")) cause
          ∧ (convertHttpToBrowserUrl E url w).1
            = Threw (ErrorObj (ResolutionFailed url cause)))).
Proof.
  unfold convertHttpToBrowserUrl. run_async.
  destruct (fetch E (url +:+ "/json/version"))
    as [reason|[] statusText [reason| |ws]]; simpl; (split; [done|]);
    first [ left; by eauto
          | right; eexists; split; [constructor|done] ].
Qed.

(** X7. When a switch returns, the registry holds the context that
    [McpContext.from] built during this switch, from the handle of the
    new connection and with the debugging and all-pages flags of the
    command line, each [false] when absent. *)
Theorem switchBrowser_installs (E : Env) (url : string) (timeout : option Z)
    (w : World) :
  (switchBrowser E url timeout w).1 = Returned () →
  ∃ b c,
    McpContext_from E b
      (mkFromOptions (default false (args_experimentalDevtools E))
         (default false (args_experimentalIncludeAllPages E))) = inr c
    ∧ getContext (switchBrowser E url timeout w).2 = Some c
    ∧ EvFrom b
        (mkFromOptions (default false (args_experimentalDevtools E))
           (default false (args_experimentalIncludeAllPages E)))
      ∈ events_since w (switchBrowser E url timeout w).2.
Proof.
  unfold getContext, events_since, switchBrowser, disconnectBrowser,
    convertHttpToBrowserUrl, appendResponseLine.
  run_async.
  repeat
    (match goal with
     | |- context [setContext E ?o ?w1] =>
         let H := fresh "H" in
         pose proof (setContext_built E o w1) as H;
         destruct (setContext E o w1) as [[c|e|] w2]; simpl in *
     | _ => step; run_async
     end);
    intros Hreturned; try discriminate Hreturned;
    match goal with
    | H : ∀ c0, Returned ?c = Returned c0 → _ |- _ =>
        destruct (H c eq_refl) as (b & evs & _ & Hfrom & Hcontext & Htrace & Hin)
    end;
    exists b, c; (split; [exact Hfrom|split; [exact Hcontext|]]);
    rewrite Htrace, <- !app_assoc, drop_app_length; simpl;
    rewrite ?elem_of_cons, ?elem_of_app; tauto.
Qed.

Lemma switchBrowser_installs_witness :
  ∃ b c,
    Sample.build b (mkFromOptions true false) = inr c
    ∧ getContext
        (switchBrowser Fixtures.env "http://127.0.0.1:9444" None
           Sample.connected_world).2 = Some c
    ∧ EvFrom b (mkFromOptions true false)
      ∈ events_since Sample.connected_world
          (switchBrowser Fixtures.env "http://127.0.0.1:9444" None
             Sample.connected_world).2.
Proof.
  apply (switchBrowser_installs Fixtures.env "http://127.0.0.1:9444" None
           Sample.connected_world).
  reflexivity.
Defined.

(** * Further properties of the layout tools *)

(** ** Strings *)




(** ** The fields of a serialized node *)

Section FieldProperties.
Context (args : Layout.DomTreeParams).



End FieldProperties.





(** ** The size of the output *)

Lemma height_children (e : Layout.Element) :
  Tree.height e
  = list_max (map (λ child, S (Tree.height child)) (Layout.el_children e)).
Proof.
  destruct e as [tagName id className attributes nodes].
  unfold Layout.el_children. simpl.
  induction nodes as [|[child| |] rest IHrest]; simpl; [done| |done..].
  by rewrite IHrest.
Qed.

Lemma size_children (e : Layout.Element) :
  Tree.size e = S (sum_list (map Tree.size (Layout.el_children e))).
Proof.
  destruct e as [tagName id className attributes nodes].
  unfold Layout.el_children. simpl. f_equal.
  induction nodes as [|[child| |] rest IHrest]; simpl; [done| |done..].
  by rewrite IHrest.
Qed.

Lemma length_flat_map_le {A B : Type} (f : A → list B) (g : A → nat)
    (l : list A) :
  Forall (λ a, length (f a) ≤ g a)%nat l →
  (length (flat_map f l) ≤ sum_list (map g l))%nat.
Proof.
  induction 1 as [|a l Ha _ IH]; simpl; [done|].
  rewrite length_app. lia.
Qed.

Lemma length_flat_map_eq {A B : Type} (f : A → list B) (g : A → nat)
    (l : list A) :
  Forall (λ a, length (f a) = g a) l →
  length (flat_map f l) = sum_list (map g l).
Proof.
  induction 1 as [|a l Ha _ IH]; simpl; [done|].
  rewrite length_app. lia.
Qed.

Lemma flat_map_map_compat {A B C : Type} (f : B → list C) (g : A → B)
    (l : list A) :
  flat_map f (map g l) = flat_map (λ a, f (g a)) l.
Proof. induction l as [|a l IH]; simpl; [done|]. by rewrite IH. Qed.

Section SizeProperties.
Context (args : Layout.DomTreeParams).

(** The output never has more nodes than the subtree has elements. *)
Lemma serialized_size_le (node : Layout.Element) :
  ∀ depth,
    (length (Layout.nodes_with_depth depth
               (Layout.serializeNode args node depth)) ≤ Tree.size node)%nat.
Proof.
  induction node as [node IHchildren] using Element_children_ind.
  intros depth. rewrite nodes_with_depth_unfold, size_children.
  pose proof (serializeNode_children args node depth) as Hfields.
  destruct (bool_decide (Layout.el_children node ≠ []));
    [destruct (Layout.depth_below depth (Layout.maxDepth args))|];
    injection Hfields as -> _; simpl; [|lia..].
  apply le_n_S. rewrite flat_map_map_compat.
  apply length_flat_map_le.
  apply (Forall_impl _ _ _ IHchildren). intros child Hchild. apply Hchild.
Qed.

(** When [maxDepth] reaches the deepest level of the subtree, every
    element is in the output and no node is cut to a count. *)
Lemma serialized_complete (node : Layout.Element) :
  ∀ depth,
    (inject_Z (Z.of_nat (depth + Tree.height node)) <= Layout.maxDepth args)%Q →
    length (Layout.nodes_with_depth depth
              (Layout.serializeNode args node depth)) = Tree.size node
    ∧ Forall (λ p, Layout.childCount p.2 = None)
        (Layout.nodes_with_depth depth (Layout.serializeNode args node depth)).
Proof.
  induction node as [node IHchildren] using Element_children_ind.
  intros depth Hdeep. rewrite nodes_with_depth_unfold, size_children.
  pose proof (serializeNode_children args node depth) as Hfields.
  rewrite height_children in Hdeep.
  case_bool_decide as Hchildren.
  - assert (Layout.depth_below depth (Layout.maxDepth args) = true) as Hbelow.
    { apply depth_below_spec. unfold Layout.below.
      eapply Qlt_le_trans; [|exact Hdeep]. rewrite <- Zlt_Qlt.
      destruct (Layout.el_children node) as [|child rest]; [done|].
      simpl. lia. }
    rewrite Hbelow in Hfields. injection Hfields as Hc Hk. rewrite Hc. simpl.
    assert (Forall (λ child,
              length (Layout.nodes_with_depth (S depth)
                        (Layout.serializeNode args child (S depth)))
              = Tree.size child
              ∧ Forall (λ p, Layout.childCount p.2 = None)
                  (Layout.nodes_with_depth (S depth)
                     (Layout.serializeNode args child (S depth))))
              (Layout.el_children node)) as Hall.
    { rewrite Forall_forall in IHchildren. apply Forall_forall.
      intros child Hchild. apply IHchildren; [done|].
      eapply Qle_trans; [|exact Hdeep]. rewrite <- Zle_Qle.
      assert (S (Tree.height child)
              ≤ list_max (map (λ c, S (Tree.height c)) (Layout.el_children node)))%nat;
        [|lia].
      apply list_elem_of_In in Hchild.
      pose proof (proj1 (list_max_le
                    (map (λ c, S (Tree.height c)) (Layout.el_children node)) _)
                    (Nat.le_refl _)) as Hmax.
      rewrite List.Forall_forall in Hmax. apply Hmax.
      apply in_map_iff. by exists child. }
    split.
    + f_equal. rewrite flat_map_map_compat. apply length_flat_map_eq.
      apply (Forall_impl _ _ _ Hall). by intros child [? _].
    + constructor; [done|].
      apply Forall_forall. intros p Hp.
      apply list_elem_of_In, in_flat_map in Hp as (n & Hn & Hp).
      apply in_map_iff in Hn as (child & <- & Hchild).
      rewrite Forall_forall in Hall.
      destruct (Hall child (proj2 (list_elem_of_In _ _) Hchild)) as [_ Hnone].
      rewrite Forall_forall in Hnone. apply Hnone. by apply list_elem_of_In.
  - injection Hfields as Hc Hk. rewrite Hc.
    assert (Layout.el_children node = []) as ->
      by (destruct (Layout.el_children node); [done|by destruct Hchildren]).
    simpl. split; [done|]. by repeat constructor.
Qed.

End SizeProperties.

(** X13. When [maxDepth] is at least the number of levels below the
    root of the serialization, the output is the whole subtree: it has
    one node for each element, and no node carries a [childCount]. *)
Theorem serialized_whole_tree (args : Layout.DomTreeParams)
    (node : Layout.Element) (depth : nat) :
  (inject_Z (Z.of_nat (depth + Tree.height node)) <= Layout.maxDepth args)%Q →
  length (Layout.nodes_with_depth depth (Layout.serializeNode args node depth))
  = Tree.size node
  ∧ Forall (λ p, Layout.childCount p.2 = None)
      (Layout.nodes_with_depth depth (Layout.serializeNode args node depth)).
Proof. apply serialized_complete. Qed.

Lemma serialized_whole_tree_witness :
  length (Layout.nodes_with_depth 0
            (Layout.serializeNode (Sample.tree_args 3) Sample.document_body 0))
  = 6%nat
  ∧ Forall (λ p, Layout.childCount p.2 = None)
      (Layout.nodes_with_depth 0
         (Layout.serializeNode (Sample.tree_args 3) Sample.document_body 0)).
Proof.
  apply (serialized_whole_tree (Sample.tree_args 3) Sample.document_body 0).
  vm_compute. discriminate.
Defined.

(** X14. Whatever [maxDepth] is, the output has at least its root and at
    most one node for each element of the subtree. *)
Theorem serialized_size_bounds (args : Layout.DomTreeParams)
    (node : Layout.Element) (depth : nat) :
  (1 ≤ length (Layout.nodes_with_depth depth
                 (Layout.serializeNode args node depth))
   ≤ Tree.size node)%nat.
Proof.
  split; [|apply serialized_size_le].
  rewrite nodes_with_depth_unfold. simpl. lia.
Qed.

(** ** inspect_element and get_dom_tree: what the page answers *)

(** X15. A selector that is not empty takes precedence over the
    coordinates, with no fallback: when it matches nothing, the handler
    answers ["Error: Element not found"] whatever [x] and [y] are. *)
Theorem inspect_selector_precedence (P : Layout.Page)
    (params : Layout.InspectParams) (w : World) (sel : string) :
  Layout.selector params = Some sel →
  sel ≠ "" →
  Layout.querySelector P sel = inr None →
  Layout.inspectElement P params w
  = (Returned (),
     mkWorld (context w) (timers w)
       (trace w ++ [EvEvaluate "inspect_element";
                    EvResponseLine "Error: Element not found"])).
Proof.
  intros Hsel Hnonempty Hquery.
  unfold Layout.inspectElement, Layout.inspect_in_page, appendResponseLine.
  rewrite Hsel. destruct sel as [|c sel]; [done|]. simpl.
  rewrite Hquery. run_async. by rewrite <- app_assoc.
Qed.

Lemma inspect_selector_precedence_witness :
  Layout.inspectElement Sample.page
    (Layout.mkInspectParams (Some ".missing") (Some 5%Q) (Some 5%Q) true)
    Sample.start
  = (Returned (),
     mkWorld None ∅
       [EvEvaluate "inspect_element";
        EvResponseLine "Error: Element not found"]).
Proof.
  apply (inspect_selector_precedence Sample.page
           (Layout.mkInspectParams (Some ".missing") (Some 5%Q) (Some 5%Q) true)
           Sample.start ".missing").
  - reflexivity.
  - discriminate.
  - reflexivity.
Defined.

(** X16. When the root is not found, [get_dom_tree] serializes nothing
    and does not throw: its response is one line that names the selector
    that was asked for, or [body] when there was none or an empty
    one. *)
Theorem getDomTree_root_not_found (args : Layout.DomTreeParams)
    (P : Layout.Page) (JSON_stringify : Layout.DomNode → string) (w : World) :
  (Layout.truthy_string (Layout.rootSelector args) = false →
   Layout.body P = None →
   Layout.getDomTree args P JSON_stringify w
   = (Returned (),
      mkWorld (context w) (timers w)
        (trace w ++ [EvEvaluate "get_dom_tree";
                     EvResponseLine "Error: Root element not found: body"])))
  ∧ (∀ sel,
       Layout.rootSelector args = Some sel → sel ≠ "" →
       Layout.querySelector P sel = inr None →
       Layout.getDomTree args P JSON_stringify w
       = (Returned (),
          mkWorld (context w) (timers w)
            (trace w ++
             [EvEvaluate "get_dom_tree";
              EvResponseLine ("Error: Root element not found: " +:+ sel)]))).
Proof.
  unfold Layout.getDomTree, Layout.dom_tree_in_page, appendResponseLine.
  split.
  - intros -> ->. run_async. by rewrite <- app_assoc.
  - intros sel -> Hnonempty Hquery. destruct sel as [|c sel]; [done|].
    simpl. rewrite Hquery. run_async. by rewrite <- app_assoc.
Qed.

Lemma getDomTree_root_not_found_witness :
  Layout.getDomTree (Layout.mkDomTreeParams (Some "") 2 false true)
    (Layout.mkPage (λ _, inr None) (λ _ _, None) None (λ _ _, ""))
    (λ _, "") Sample.start
  = (Returned (),
     mkWorld None ∅
       [EvEvaluate "get_dom_tree";
        EvResponseLine "Error: Root element not found: body"])
  ∧ Layout.getDomTree (Layout.mkDomTreeParams (Some "#app") 2 false true)
      Sample.page (λ _, "") Sample.start
    = (Returned (),
       mkWorld None ∅
         [EvEvaluate "get_dom_tree";
          EvResponseLine "Error: Root element not found: #app"]).
Proof.
  destruct (getDomTree_root_not_found
              (Layout.mkDomTreeParams (Some "") 2 false true)
              (Layout.mkPage (λ _, inr None) (λ _ _, None) None (λ _ _, ""))
              (λ _, "") Sample.start) as [Hbody _].
  destruct (getDomTree_root_not_found
              (Layout.mkDomTreeParams (Some "#app") 2 false true)
              Sample.page (λ _, "") Sample.start) as [_ Hselector].
  split.
  - apply Hbody; reflexivity.
  - apply (Hselector "#app"); [reflexivity | discriminate | reflexivity].
Defined.

(** * Properties of the other tools *)

(** ** select_active_page *)

(** The loop over pages that are there and not visible. *)
Lemma scan_hidden (C : Tools.Pages) (n : nat) :
  ∀ fuel i,
    (∀ j, (i ≤ j < i + n)%nat →
       ∃ page, Tools.getPageByIdx C j = inr page
               ∧ Tools.visible page = inr false) →
    Tools.scan C (n + fuel) i
    = match Tools.scan C fuel (i + n) with
      | Some (effects, selectedPageUrl) =>
          Some (map Tools.Evaluated (seq i n) ++ effects, selectedPageUrl)
      | None => None
      end.
Proof.
  induction n as [|n IH]; intros fuel i Hhidden.
  - rewrite Nat.add_0_r. simpl. by destruct (Tools.scan C fuel i) as [[? ?]|].
  - destruct (Hhidden i ltac:(lia)) as (page & Hpage & Hvisible).
    simpl. rewrite Hpage, Hvisible.
    rewrite IH by (intros j Hj; apply Hhidden; lia).
    replace (i + S n)%nat with (S i + n)%nat by lia.
    by destruct (Tools.scan C fuel (S i + n)) as [[? ?]|].
Qed.

(** X17. The page that [select_active_page] selects is the first
    visible one: when the pages before index [k] are there and not
    visible and the page at [k] is visible, the handler evaluates the
    pages 0 to [k] in turn, selects the page at [k] and stops.  It
    reports the URL of the page, unless the URL is empty: then it says
    that no page was found, although one was selected. *)
Theorem first_visible_page_selected (C : Tools.Pages) (k fuel : nat)
    (page : Tools.Tab) :
  Tools.hidden_before C k →
  Tools.getPageByIdx C k = inr page →
  Tools.visible page = inr true →
  Tools.selectPage_throws C k = false →
  (k < fuel)%nat →
  Tools.selectActivePage C fuel
  = Some (map Tools.Evaluated (seq 0 (S k)) ++
          [Tools.Selected k;
           Tools.Line
             (if Layout.truthy_string (Some (Tools.url page))
              then "Successfully selected active page: " +:+ Tools.url page
              else Tools.no_active_page)]).
Proof.
  intros Hhidden Hpage Hvisible Hselect Hfuel.
  unfold Tools.selectActivePage. rewrite seq_S, map_app.
  replace fuel with (k + S (fuel - S k))%nat by lia.
  rewrite scan_hidden by (intros j Hj; apply Hhidden; lia).
  simpl. rewrite Hpage, Hvisible, Hselect.
  by rewrite <- !app_assoc.
Qed.

Lemma first_visible_page_selected_witness :
  Tools.selectActivePage Fixtures.three_pages 5
  = Some [Tools.Evaluated 0; Tools.Evaluated 1; Tools.Evaluated 2;
          Tools.Selected 2;
          Tools.Line "Successfully selected active page: https://c.example/"].
Proof.
  apply (first_visible_page_selected Fixtures.three_pages 2 5
           (Tools.mkTab "https://c.example/" (inr true)));
    try reflexivity; [|lia].
  intros j Hj.
  destruct j as [|[|j]]; [eexists; split; reflexivity..|lia].
Defined.

(** X18. The loop ends at the first page that fails: when the pages
    before index [k] are there and not visible and the page at [k] is
    missing, or cannot be evaluated, or cannot be selected, nothing is
    selected and the handler says that no page was found; the pages
    after [k] are not looked at, visible or not. *)
Theorem scan_stops_at_failure (C : Tools.Pages) (k fuel : nat) :
  Tools.hidden_before C k →
  (k < fuel)%nat →
  (∃ e, Tools.getPageByIdx C k = inl e)
  ∨ (∃ page,
       Tools.getPageByIdx C k = inr page
       ∧ ((∃ e, Tools.visible page = inl e)
          ∨ (Tools.visible page = inr true
             ∧ Tools.selectPage_throws C k = true))) →
  ∃ n, (k ≤ n ≤ S k)%nat
       ∧ Tools.selectActivePage C fuel
         = Some (map Tools.Evaluated (seq 0 n)
                 ++ [Tools.Line Tools.no_active_page]).
Proof.
  intros Hhidden Hfuel Hfails.
  unfold Tools.selectActivePage.
  replace fuel with (k + S (fuel - S k))%nat by lia.
  rewrite scan_hidden by (intros j Hj; apply Hhidden; lia).
  destruct Hfails as [[e Hpage]|(page & Hpage & [[e Hvisible]|[Hvisible Hselect]])].
  - exists k. split; [lia|]. simpl. rewrite Hpage. by rewrite app_nil_r.
  - exists (S k). split; [lia|]. rewrite seq_S, map_app. simpl.
    by rewrite Hpage, Hvisible.
  - exists (S k). split; [lia|]. rewrite seq_S, map_app. simpl.
    by rewrite Hpage, Hvisible, Hselect.
Qed.

Lemma scan_stops_at_failure_witness :
  ∃ n, (1 ≤ n ≤ 2)%nat
       ∧ Tools.selectActivePage Fixtures.closed_page_first 5
         = Some (map Tools.Evaluated (seq 0 n)
                 ++ [Tools.Line Tools.no_active_page]).
Proof.
  apply (scan_stops_at_failure Fixtures.closed_page_first 1 5).
  - intros j Hj. destruct j as [|j]; [eexists; split; reflexivity|lia].
  - lia.
  - right. eexists. split; [reflexivity|]. left. eexists. reflexivity.
Defined.

(** X19. The loop has no bound of its own: it ends only because some
    page is visible or some index fails.  With a context that answers
    every index with a page that is not visible, the handler is still
    running after any number of rounds. *)
Theorem scan_needs_a_last_page (C : Tools.Pages) (fuel : nat) :
  (∀ i, ∃ page, Tools.getPageByIdx C i = inr page
                ∧ Tools.visible page = inr false) →
  Tools.selectActivePage C fuel = None.
Proof.
  intros Hhidden. unfold Tools.selectActivePage.
  replace fuel with (fuel + 0)%nat by lia.
  by rewrite scan_hidden by (intros j _; apply Hhidden).
Qed.

Lemma scan_needs_a_last_page_witness :
  Tools.selectActivePage Fixtures.endless_pages 1000 = None.
Proof.
  apply (scan_needs_a_last_page Fixtures.endless_pages 1000).
  intros i. eexists. split; reflexivity.
Defined.

(** ** scroll_element *)




(** ** inject_custom_css *)

(** X22. When the element is not found, [inject_custom_css] changes no
    style and its response is the bare message
    ["Element not found: "] with the selector.  What the evaluation
    throws is not caught: the handler throws it, with no response. *)
Theorem injectCustomCss_failures (S : Tools.Stylist)
    (JSON_stringify : Tools.InjectResult → string) (selector : string)
    (css : list (string * string)) :
  (Tools.query_element S selector = inr None →
   Tools.injectCustomCss S JSON_stringify selector css
   = (Returned (), [Tools.Line ("Element not found: " +:+ selector)]))
  ∧ (∀ e, Tools.query_element S selector = inl e →
     Tools.injectCustomCss S JSON_stringify selector css = (Threw e, [])).
Proof.
  unfold Tools.injectCustomCss, Tools.inject_in_page.
  split; [intros ->|intros e ->]; done.
Qed.

Lemma injectCustomCss_failures_witness :
  Tools.injectCustomCss Fixtures.stylist (λ _, "{}") "#none"
    [("overflow", "hidden")]
  = (Returned (), [Tools.Line "Element not found: #none"])
  ∧ Tools.injectCustomCss Fixtures.stylist (λ _, "{}") ""
      [("overflow", "hidden")]
    = (Threw (ErrorObj "The provided selector is empty"), []).
Proof.
  destruct (injectCustomCss_failures Fixtures.stylist (λ _, "{}") "#none"
              [("overflow", "hidden")]) as [Hmissing _].
  destruct (injectCustomCss_failures Fixtures.stylist (λ _, "{}") ""
              [("overflow", "hidden")]) as [_ Hthrown].
  split.
  - apply Hmissing. reflexivity.
  - apply (Hthrown (ErrorObj "The provided selector is empty")). reflexivity.
Defined.

Lemma apply_css_effects (css : list (string * string)) :
  Tools.apply_css css = (Returned (), map style_op css).
Proof.
  induction css as [|[prop value] css IH]; [done|].
  simpl. rewrite IH. unfold style_op. simpl. by case_bool_decide.
Qed.

Lemma restyle_app {Style : Type} (setProperty : string → string → Style → Style)
    (removeProperty : string → Style → Style) (first second : list Tools.Effect)
    (style : Style) :
  Tools.restyle setProperty removeProperty (first ++ second) style
  = Tools.restyle setProperty removeProperty second
      (Tools.restyle setProperty removeProperty first style).
Proof.
  revert style. induction first as [|[] first IH]; intros style; simpl; done.
Qed.

(** X23. For an element that is found and a style that keeps what it is
    given (a property that is set reads as its value, one that is
    removed reads as the empty string, and the others are left alone),
    the inline style after [inject_custom_css] reads, for every entry of
    the [css] argument, as the value of the entry, so an entry with the
    value [""] removes its property; the properties that [css] does not
    name read as before. *)
Theorem injected_style {Style : Type}
    (setProperty : string → string → Style → Style)
    (removeProperty : string → Style → Style)
    (getPropertyValue : Style → string → string)
    (S : Tools.Stylist) (JSON_stringify : Tools.InjectResult → string)
    (selector : string) (css : list (string * string)) (el : nat)
    (style : Style) :
  (∀ p v s, v ≠ "" → getPropertyValue (setProperty p v s) p = v) →
  (∀ p q v s, p ≠ q →
     getPropertyValue (setProperty p v s) q = getPropertyValue s q) →
  (∀ p s, getPropertyValue (removeProperty p s) p = "") →
  (∀ p q s, p ≠ q →
     getPropertyValue (removeProperty p s) q = getPropertyValue s q) →
  Tools.query_element S selector = inr (Some el) →
  NoDup css.*1 →
  (∀ p v, (p, v) ∈ css →
     getPropertyValue
       (Tools.restyle setProperty removeProperty
          (Tools.injectCustomCss S JSON_stringify selector css).2 style) p = v)
  ∧ (∀ q, q ∉ css.*1 →
     getPropertyValue
       (Tools.restyle setProperty removeProperty
          (Tools.injectCustomCss S JSON_stringify selector css).2 style) q
     = getPropertyValue style q).
Proof.
  intros Hset Hset_other Hremove Hremove_other Hfound Hnodup.
  unfold Tools.injectCustomCss, Tools.inject_in_page.
  rewrite Hfound, apply_css_effects. simpl. rewrite app_nil_r, restyle_app.
  simpl.
  assert (Hothers : ∀ entries s q, q ∉ entries.*1 →
            getPropertyValue
              (Tools.restyle setProperty removeProperty (map style_op entries) s) q
            = getPropertyValue s q).
  { induction entries as [|[p v] entries IH]; intros s q Hq; [done|].
    apply not_elem_of_cons in Hq as [Hne Hq]. simpl in *.
    unfold style_op at 1. simpl. case_bool_decide; simpl; rewrite IH by done;
      [by apply Hremove_other|by apply Hset_other]. }
  split; [|intros q Hq; by apply Hothers].
  clear Hfound. revert style.
  induction css as [|[p v] css IH]; intros style p' v' Hin.
  - by apply elem_of_nil in Hin.
  - apply NoDup_cons in Hnodup as [Hfresh Hnodup]. simpl in Hfresh.
    apply elem_of_cons in Hin as [[= -> ->]|Hin].
    + simpl. unfold style_op at 1. simpl.
      case_bool_decide as Hempty; simpl; rewrite Hothers by done.
      * by rewrite Hempty, Hremove.
      * by apply Hset.
    + simpl. unfold style_op at 1. simpl.
      case_bool_decide; simpl; by apply IH.
Qed.

Lemma injected_style_witness :
  (∀ p v, (p, v) ∈ [("overflow", "hidden"); ("width", "")] →
     Fixtures.style_get
       (Tools.restyle (λ p v s, <[p:=v]> s) (λ p s, delete p s)
          (Tools.injectCustomCss Fixtures.stylist (λ _, "{}") "#list"
             [("overflow", "hidden"); ("width", "")]).2
          {["width" := "100px"; "color" := "red"]}) p = v)
  ∧ (∀ q, q ∉ [("overflow", "hidden"); ("width", "")].*1 →
     Fixtures.style_get
       (Tools.restyle (λ p v s, <[p:=v]> s) (λ p s, delete p s)
          (Tools.injectCustomCss Fixtures.stylist (λ _, "{}") "#list"
             [("overflow", "hidden"); ("width", "")]).2
          {["width" := "100px"; "color" := "red"]}) q
     = Fixtures.style_get {["width" := "100px"; "color" := "red"]} q).
Proof.
  apply (injected_style (λ p v s, <[p:=v]> s) (λ p s, delete p s)
           Fixtures.style_get Fixtures.stylist (λ _, "{}") "#list"
           [("overflow", "hidden"); ("width", "")] 7
           {["width" := "100px"; "color" := "red"]}).
  - intros p v s _. unfold Fixtures.style_get. by rewrite lookup_insert_eq.
  - intros p q v s Hne. unfold Fixtures.style_get.
    by rewrite lookup_insert_ne.
  - intros p s. unfold Fixtures.style_get. by rewrite lookup_delete_eq.
  - intros p q s Hne. unfold Fixtures.style_get.
    by rewrite lookup_delete_ne.
  - reflexivity.
  - simpl. apply NoDup_cons. split; [|apply NoDup_singleton].
    intros Hin. apply list_elem_of_singleton in Hin. discriminate Hin.
Defined.

(** ** inspect_element: the selector of the element *)

Lemma anchor_false (D : Tools.Doc) (e : Tools.Node) :
  Tools.anchor D e = false →
  Layout.truthy_string (Some (Tools.id e)) = false
  ∧ Tools.doc_body D ≠ Some (Tools.ident e)
  ∧ Tools.documentElement D ≠ Some (Tools.ident e).
Proof.
  unfold Tools.anchor. rewrite !orb_false_iff, !bool_decide_eq_false. tauto.
Qed.

Lemma anchor_true (D : Tools.Doc) (e : Tools.Node) :
  Tools.anchor D e = true →
  Layout.truthy_string (Some (Tools.id e)) = true
  ∨ Tools.doc_body D = Some (Tools.ident e)
  ∨ Tools.documentElement D = Some (Tools.ident e).
Proof.
  unfold Tools.anchor. rewrite !orb_true_iff, !bool_decide_eq_true. tauto.
Qed.

(** The walk does not look above the first anchor, and adds one segment
    for each element up to it. *)
Lemma walk_up_to_anchor (D : Tools.Doc) (c : Tools.Chain) :
  ∀ path,
    Tools.walk D c path = Tools.walk D (up_to_anchor D c) path
    ∧ length (Tools.walk D c path)
      = (length (Tools.nodes_of (up_to_anchor D c)) + length path)%nat.
Proof.
  induction c as [e|e siblings parent IH]; intros path.
  - split; [done|]. cbn -[Layout.truthy_string]. by repeat case_match.
  - cbn -[Layout.truthy_string]. destruct (Tools.anchor D e) eqn:Hanchor.
    + apply anchor_true in Hanchor. cbn -[Layout.truthy_string].
      destruct (Layout.truthy_string (Some (Tools.id e))); [done|].
      destruct (decide (Tools.doc_body D = Some (Tools.ident e))); [done|].
      destruct (decide (Tools.documentElement D = Some (Tools.ident e)));
        [done|].
      by destruct Hanchor as [?|[?|?]].
    + apply anchor_false in Hanchor as (Hid & Hbody & Hroot).
      cbn -[Layout.truthy_string]. rewrite Hid.
      destruct (decide (Tools.doc_body D = Some (Tools.ident e))); [done|].
      destruct (decide (Tools.documentElement D = Some (Tools.ident e)));
        [done|].
      match goal with
      | |- Tools.walk D parent ?p = _ ∧ _ =>
          destruct (IH p) as [Hwalk Hlength]
      end.
      split; [exact Hwalk|]. rewrite Hlength. simpl. lia.
Qed.

(** X24. The selector that [getSelector] builds is relative to the
    nearest anchor, the first element on the way up that has an id or is
    the body or the document element: nothing above the anchor has a
    part in it, and it has one segment for each element from the
    element up to the anchor. *)
Theorem getSelector_relative_to_anchor (D : Tools.Doc) (c : Tools.Chain) :
  Tools.getSelector D (Some c) = Tools.getSelector D (Some (up_to_anchor D c))
  ∧ length (Tools.walk D c [])
    = length (Tools.nodes_of (up_to_anchor D c))
  ∧ (length (Tools.nodes_of (up_to_anchor D c))
     ≤ length (Tools.nodes_of c))%nat.
Proof.
  destruct (walk_up_to_anchor D c []) as [Hwalk Hlength].
  split; [|split].
  - unfold Tools.getSelector. by rewrite Hwalk.
  - rewrite Hlength. simpl. lia.
  - clear Hwalk Hlength.
    induction c as [e|e siblings parent IH]; simpl; [done|].
    destruct (Tools.anchor D e); simpl; lia.
Qed.

(** X25. The index that [getSelector] puts in [:nth-child()] is the
    position, counted from 1, of the first sibling that is the element
    itself; were the element not among the children of its parent, the
    index would be one more than their number. *)
Theorem nth_child_index_position (current : nat) (siblings : list nat) :
  (current ∈ siblings →
   (1 ≤ Tools.nth_child_index current siblings ≤ length siblings)%nat
   ∧ siblings !! (Tools.nth_child_index current siblings - 1)%nat = Some current
   ∧ ∀ j, (j < Tools.nth_child_index current siblings - 1)%nat →
          siblings !! j ≠ Some current)
  ∧ (current ∉ siblings →
     Tools.nth_child_index current siblings = S (length siblings)).
Proof.
  split.
  - induction siblings as [|sibling rest IH]; intros Hin.
    + by apply elem_of_nil in Hin.
    + simpl. destruct (decide (sibling = current)) as [->|Hne].
      * split; [simpl; lia|]. split; [done|]. intros j Hj. simpl in Hj. lia.
      * apply elem_of_cons in Hin as [->|Hin]; [done|].
        destruct (IH Hin) as (Hrange & Hlookup & Hfirst).
        split; [simpl; lia|].
        replace (S (Tools.nth_child_index current rest) - 1)%nat
          with (S (Tools.nth_child_index current rest - 1))%nat by lia.
        split; [exact Hlookup|].
        intros [|j] Hj; simpl; [congruence|]. apply Hfirst. lia.
  - induction siblings as [|sibling rest IH]; intros Hout; [done|].
    apply not_elem_of_cons in Hout as [Hne Hout]. simpl.
    destruct (decide (sibling = current)); [congruence|].
    by rewrite IH.
Qed.

Lemma nth_child_index_position_witness :
  ((1 ≤ Tools.nth_child_index 6 [4; 5; 6; 7]%nat ≤ 4)%nat
   ∧ [4; 5; 6; 7]%nat !! (Tools.nth_child_index 6 [4; 5; 6; 7]%nat - 1)%nat
     = Some 6%nat
   ∧ ∀ j, (j < Tools.nth_child_index 6 [4; 5; 6; 7]%nat - 1)%nat →
          [4; 5; 6; 7]%nat !! j ≠ Some 6%nat)
  ∧ Tools.nth_child_index 9 [4; 5; 6; 7]%nat = 5%nat.
Proof.
  destruct (nth_child_index_position 6 [4; 5; 6; 7]%nat) as [Hin _].
  destruct (nth_child_index_position 9 [4; 5; 6; 7]%nat) as [_ Hout].
  split.
  - apply Hin. rewrite list_elem_of_In. simpl. tauto.
  - apply Hout. rewrite list_elem_of_In. simpl. lia.
Defined.

(** ** Errors of the evaluation in the page *)

(** X26. Unlike [scroll_element], the handlers of [inspect_element] and
    [get_dom_tree] do not catch what the evaluation in the page throws:
    when the selector makes [querySelector] throw, the handler throws
    the same value and appends nothing to the response. *)
Theorem evaluation_errors_propagate (P : Layout.Page) (sel : string)
    (e : Thrown) (w : World) :
  sel ≠ "" →
  Layout.querySelector P sel = inl e →
  (∀ x y highlight,
     Layout.inspectElement P (Layout.mkInspectParams (Some sel) x y highlight) w
     = (Threw e,
        mkWorld (context w) (timers w)
          (trace w ++ [EvEvaluate "inspect_element"])))
  ∧ (∀ maxDepth includeAttributes includeText JSON_stringify,
       Layout.getDomTree
         (Layout.mkDomTreeParams (Some sel) maxDepth includeAttributes
            includeText) P JSON_stringify w
       = (Threw e,
          mkWorld (context w) (timers w)
            (trace w ++ [EvEvaluate "get_dom_tree"]))).
Proof.
  intros Hnonempty Hquery. destruct sel as [|c sel]; [done|].
  split; intros; unfold Layout.inspectElement, Layout.inspect_in_page,
    Layout.getDomTree, Layout.dom_tree_in_page; simpl; rewrite Hquery;
    by run_async.
Qed.

Lemma evaluation_errors_propagate_witness :
  Layout.inspectElement Sample.page
    (Layout.mkInspectParams (Some "::") None None true) Sample.start
  = (Threw (ErrorObj "'::' is not a valid selector"),
     mkWorld None ∅ [EvEvaluate "inspect_element"])
  ∧ Layout.getDomTree (Layout.mkDomTreeParams (Some "::") 2 false true)
      Sample.page (λ _, "") Sample.start
    = (Threw (ErrorObj "'::' is not a valid selector"),
       mkWorld None ∅ [EvEvaluate "get_dom_tree"]).
Proof.
  destruct (evaluation_errors_propagate Sample.page "::"
              (ErrorObj "'::' is not a valid selector") Sample.start)
    as [Hinspect Htree]; [discriminate | reflexivity |].
  split; [apply Hinspect | apply Htree].
Defined.
